(** * Prompt loading (langchain/prompts/loading.py)

    A shallow embedding of the prompt loader and the properties of its
    resolution pipeline.

    Python values are a small JSON-like inductive type; a [dict] with string
    keys is a [gmap string value].  The loader mutates the configuration
    dictionary in place and raises exceptions, so every function is written
    in a state-and-exception monad whose state survives a raise.  Calls to
    collaborators that live outside this module (the JSON and YAML decoders,
    the pydantic constructors, [exec], [requests.get], [os.path.relpath])
    are fields of an environment record [Env].

    Conventions.  Paths are POSIX paths.  The file system maps the string
    handed to [open] to the text of the file; bytes and text are not told
    apart.  A dictionary stored inside another is shared with it and with
    nothing else.  Every [ValueError] of the source is kept with its
    message, or with none where the source gives none, which is how the
    different failures are told apart. *)

From stdpp Require Import gmap strings list fin_maps.
From Stdlib Require Import Ascii String.

Set Warnings "-register-all".
Open Scope string_scope.

(** ** Strings: the [str] and [pathlib] operations the loader uses *)

Module Str.

(** [s.split(c)] for a one-character separator: never empty. *)
Fixpoint split (c : ascii) (s : string) : list string :=
  match s with
  | EmptyString => [EmptyString]
  | String a s' =>
      match split c s' with
      | [] => [String a EmptyString]
      | hd :: tl =>
          if Ascii.eqb a c then EmptyString :: hd :: tl
          else String a hd :: tl
      end
  end.

(** [s.rfind(c)]; [None] stands for Python's [-1]. *)
Fixpoint rfind (c : ascii) (s : string) : option nat :=
  match s with
  | EmptyString => None
  | String a s' =>
      match rfind c s' with
      | Some i => Some (S i)
      | None => if Ascii.eqb a c then Some 0 else None
      end
  end.

(** [s.startswith(p)] *)
Definition startswith (s p : string) : bool := String.prefix p s.

(** [s.endswith(p)] *)
Definition endswith (s p : string) : bool :=
  Nat.leb (String.length p) (String.length s)
  && String.eqb (substring (String.length s - String.length p)
                           (String.length p) s) p.

(** [s.split(".")[-1]] *)
Definition last_dot_segment (s : string) : string :=
  List.last (split "."%char s) EmptyString.

(** [PurePosixPath(s).name]: the last component that is neither empty nor
    a single dot. *)
Definition path_name (s : string) : string :=
  List.last
    (List.filter (fun p => negb (String.eqb p "") && negb (String.eqb p "."))
                 (split "/"%char s))
    EmptyString.

(** [PurePosixPath(s).suffix]:
    [i = name.rfind('.'); name[i:] if 0 < i < len(name) - 1 else ''] *)
Definition path_suffix (s : string) : string :=
  let name := path_name s in
  match rfind "."%char name with
  | Some i =>
      if Nat.ltb 0 i && Nat.ltb i (String.length name - 1)
      then substring i (String.length name - i) name
      else EmptyString
  | None => EmptyString
  end.

End Str.

(** ** Values, exceptions, observable calls *)

Inductive pyclass := PromptTemplate | FewShotPromptTemplate | RegexParser.

(** Values that occur in a configuration: what [json.load] and
    [yaml.safe_load] produce, and the objects the loader stores back into
    the configuration while it resolves it. *)
Inductive value :=
  | VNone
  | VBool (b : bool)
  | VInt (z : Z)
  | VStr (s : string)
  | VList (l : list value)
  | VDict (d : gmap string value)
  | VObj (c : pyclass) (attrs : gmap string value).

Abbreviation dict := (gmap string value).

Inductive exn :=
  | ValueError (msg : option string)   (* [raise ValueError] has no message *)
  | KeyError (key : string)
  | TypeError
  | AttributeError
  | OSError (path : string)            (* [open] of a path that is not there *)
  | External (what : string).          (* raised inside a collaborator *)

(** Calls that leave the module, in the order they are made. *)
Inductive event :=
  | ENew (c : pyclass) (kwargs : dict)   (* constructor [c], keywords [kwargs] *)
  | EGet (url : string).                 (* [requests.get(url)] *)

Record response := { status_code : Z; content : string }.

Record world := { files : gmap string string; log : list event }.

(** The dictionary under resolution together with the world. *)
Record cstate := { config : dict; outer : world }.

Inductive res (A : Type) :=
  | Ok (a : A)
  | Raise (e : exn)
  | OutOfFuel.
Arguments Ok {A} a.
Arguments Raise {A} e.
Arguments OutOfFuel {A}.

(** ** The monad: state that survives an exception *)

Definition M (S A : Type) : Type := S -> res A * S.

Definition ret {S A} (a : A) : M S A := fun s => (Ok a, s).
Definition raise {S A} (e : exn) : M S A := fun s => (Raise e, s).
Definition out_of_fuel {S A} : M S A := fun s => (OutOfFuel, s).
Definition bind {S A B} (m : M S A) (k : A -> M S B) : M S B :=
  fun s =>
    match m s with
    | (Ok a, s') => k a s'
    | (Raise e, s') => (Raise e, s')
    | (OutOfFuel, s') => (OutOfFuel, s')
    end.

Declare Scope py_scope.
Delimit Scope py_scope with py.
Notation "x <~ m ;; k" := (bind m (fun x => k))
  (at level 100, m at next level, right associativity) : py_scope.
Notation "m ;;; k" := (bind m (fun _ => k))
  (at level 100, right associativity) : py_scope.
Open Scope py_scope.

(** A world-level computation run from inside a configuration-level one. *)
Definition lift {A} (m : M world A) : M cstate A :=
  fun st =>
    let '(r, w) := m (outer st) in
    (r, {| config := config st; outer := w |}).

Definition of_sum {S A} (x : exn + A) : M S A :=
  match x with inl e => raise e | inr a => ret a end.

(** ** Primitive operations on the dictionary and the world *)

Definition has_key (k : string) (d : dict) : bool :=
  match d !! k with Some _ => true | None => false end.

(** [k in config] *)
Definition contains (k : string) : M cstate bool :=
  fun st => (Ok (has_key k (config st)), st).

(** [config[k]] *)
Definition getitem (k : string) : M cstate value :=
  fun st =>
    match config st !! k with
    | Some v => (Ok v, st)
    | None => (Raise (KeyError k), st)
    end.

(** [config[k] = v] *)
Definition setitem (k : string) (v : value) : M cstate unit :=
  fun st => (Ok tt, {| config := <[k := v]> (config st); outer := outer st |}).

(** [config.pop(k)] *)
Definition pop (k : string) : M cstate value :=
  fun st =>
    match config st !! k with
    | Some v => (Ok v, {| config := delete k (config st); outer := outer st |})
    | None => (Raise (KeyError k), st)
    end.

(** [config.pop(k, default)] *)
Definition pop_default (k : string) (default : value) : M cstate value :=
  fun st =>
    match config st !! k with
    | Some v => (Ok v, {| config := delete k (config st); outer := outer st |})
    | None => (Ok default, st)
    end.

(** [with open(path) as f: f.read()] *)
Definition read_file (path : string) : M world string :=
  fun w =>
    match files w !! path with
    | Some text => (Ok text, w)
    | None => (Raise (OSError path), w)
    end.

Definition write_file (path text : string) : M world unit :=
  fun w => (Ok tt, {| files := <[path := text]> (files w); log := log w |}).

Definition remove_file (path : string) : M world unit :=
  fun w => (Ok tt, {| files := delete path (files w); log := log w |}).

Definition emit (e : event) : M world unit :=
  fun w => (Ok tt, {| files := files w; log := log w ++ [e] |}).

(** [v == s] for a string literal [s] *)
Definition eq_str (v : value) (s : string) : bool :=
  match v with VStr s' => String.eqb s' s | _ => false end.

(** [isinstance(v, BasePromptTemplate)] *)
Definition is_prompt (v : value) : bool :=
  match v with
  | VObj PromptTemplate _ | VObj FewShotPromptTemplate _ => true
  | _ => false
  end.

(** ** Collaborators outside this module *)

Record Env := {
  (** [json.load] and [yaml.safe_load] on the text of a file *)
  json_load : string -> exn + value;
  yaml_safe_load : string -> exn + value;
  (** the pydantic constructor of a class: validates the keyword arguments
      and yields the attributes of the new object, or raises *)
  construct : pyclass -> dict -> exn + dict;
  (** [exec] of a source text in a fresh namespace, then the namespace's
      [PROMPT] binding when there is one *)
  exec_PROMPT : string -> exn + option value;
  (** [requests.get] *)
  requests_get : string -> exn + response;
  (** [os.path.relpath] *)
  relpath : string -> string -> string;
  (** what an f-string prints for a value that is not a [str] *)
  format_value : value -> string;
  (** the directory [tempfile.TemporaryDirectory()] creates *)
  tmpdirname : string
}.

Definition URL_BASE : string :=
  "https://raw.githubusercontent.com/hwchase17/langchain-hub/master/prompts/".

Section Loader.
Context (E : Env).

(** The constructor [c] called with the keywords [kwargs]: the call is
    observable, validation is the class's own. *)
Definition new (c : pyclass) (kwargs : dict) : M world value :=
  emit (ENew c kwargs);;;
  attrs <~ of_sum (construct E c kwargs);;
  ret (VObj c attrs).

(** [f"{v}"] *)
Definition fstr (v : value) : string :=
  match v with VStr s => s | _ => format_value E v end.

(** [Path(v)] accepts a [str] only. *)
Definition as_path (v : value) : M cstate string :=
  match v with VStr s => ret s | _ => raise TypeError end.

Definition both_provided (var_name : string) : string :=
  "Both `" ++ var_name ++ "_path` and `" ++ var_name
  ++ "` cannot be provided.".

(** [_load_template(var_name, config)]; the returned dictionary is the
    argument itself, mutated: it is the [config] of the final state. *)
Definition _load_template (var_name : string) : M cstate unit :=
  has_path <~ contains (var_name ++ "_path");;
  if has_path : bool then
    has_var <~ contains var_name;;
    if has_var : bool then
      raise (ValueError (Some (both_provided var_name)))
    else
      p <~ pop (var_name ++ "_path");;
      template_path <~ as_path p;;
      template <~ (if String.eqb (Str.path_suffix template_path) ".txt"
                   then lift (read_file template_path)
                   else raise (ValueError None));;
      setitem var_name (VStr template)
  else ret tt.

Definition invalid_file_format : string :=
  "Invalid file format. Only json or yaml formats are supported.".
Definition invalid_examples_format : string :=
  "Invalid examples format. Only list or string are supported.".

(** [_load_examples(config)] *)
Definition _load_examples : M cstate unit :=
  ex <~ getitem "examples";;
  match ex with
  | VList _ => ret tt
  | VStr path =>
      (* the file is opened before its name is looked at *)
      text <~ lift (read_file path);;
      examples <~ (if Str.endswith path ".json"
                   then of_sum (json_load E text)
                   else if Str.endswith path ".yaml" || Str.endswith path ".yml"
                   then of_sum (yaml_safe_load E text)
                   else raise (ValueError (Some invalid_file_format)));;
      setitem "examples" examples
  | _ => raise (ValueError (Some invalid_examples_format))
  end.

Definition unsupported_output_parser (tag : value) : string :=
  "Unsupported output parser " ++ fstr tag.

(** [_config["_type"]]: only a dictionary can be indexed by a string. *)
Definition subscript (v : value) (k : string) : M cstate value :=
  match v with
  | VDict d =>
      match d !! k with Some x => ret x | None => raise (KeyError k) end
  | _ => raise TypeError
  end.

(** the keyword arguments a double-star unpacking of [v] passes *)
Definition as_kwargs (v : value) : M cstate dict :=
  match v with VDict d => ret d | _ => raise TypeError end.

(** [_load_output_parser(config)] *)
Definition _load_output_parser : M cstate unit :=
  present <~ contains "output_parser";;
  if present : bool then
    _config <~ getitem "output_parser";;
    match _config with
    | VNone => ret tt
    | _ =>
        output_parser_type <~ subscript _config "_type";;
        output_parser <~
          (if eq_str output_parser_type "regex_parser"
           then kwargs <~ as_kwargs _config;; lift (new RegexParser kwargs)
           else raise (ValueError
                         (Some (unsupported_output_parser output_parser_type))));;
        setitem "output_parser" output_parser
    end
  else ret tt.

(** [_load_prompt(config)] *)
Definition _load_prompt : M cstate value :=
  _load_template "template";;;
  _load_output_parser;;;
  fun st => lift (new PromptTemplate (config st)) st.

(** A call [f(v)] of a resolver [f] that starts with [v.pop("_type", ...)],
    where [v] is the value stored under [k]: the dictionary [v] is shared
    with the enclosing configuration, so what [f] does to it is seen
    there, also when [f] raises. *)
Definition call_nested (k : string) (v : value) (f : M cstate value)
  : M cstate value :=
  match v with
  | VDict d =>
      fun st =>
        let '(r, st') := f {| config := d; outer := outer st |} in
        (r, {| config := <[k := VDict (config st')]> (config st);
               outer := outer st' |})
  | VList _ => raise TypeError
  | _ => raise AttributeError
  end.

(** The same call on a value nothing else refers to. *)
Definition call_fresh (v : value) (f : M cstate value) : M world value :=
  match v with
  | VDict d =>
      fun w =>
        let '(r, st') := f {| config := d; outer := w |} in (r, outer st')
  | VList _ => raise TypeError
  | _ => raise AttributeError
  end.

Definition only_one_example_prompt : string :=
  "Only one of example_prompt and example_prompt_path should be specified.".

(** [_load_few_shot_prompt(config)], open in its two recursive callees
    [load_prompt_from_config] and [load_prompt]. *)
Definition _load_few_shot_prompt
    (load_config : M cstate value) (load_path : value -> M world value)
  : M cstate value :=
  _load_template "suffix";;;
  _load_template "prefix";;;
  has_path <~ contains "example_prompt_path";;
  (if has_path : bool then
     has_inline <~ contains "example_prompt";;
     if has_inline : bool then
       raise (ValueError (Some only_one_example_prompt))
     else
       p <~ pop "example_prompt_path";;
       prompt <~ lift (load_path p);;
       setitem "example_prompt" prompt
   else
     sub <~ getitem "example_prompt";;
     prompt <~ call_nested "example_prompt" sub load_config;;
     setitem "example_prompt" prompt);;;
  _load_examples;;;
  _load_output_parser;;;
  fun st => lift (new FewShotPromptTemplate (config st)) st.

Definition unsupported_file_type (suffix : string) : string :=
  "Got unsupported file type " ++ suffix.
Definition not_a_prompt : string :=
  "Did not get object of type BasePromptTemplate.".

(** [_load_prompt_from_file(file)], open in [load_prompt_from_config].
    [spec_from_loader] with [loader=None] always yields a spec, so the
    [spec is None] test never fires.  A [file] that is not a [str] would
    have to be a [Path]; the values here have none, and anything else has
    no [suffix] attribute. *)
Definition _load_prompt_from_file
    (load_config : M cstate value) (file : value) : M world value :=
  match file with
  | VStr file_path =>
      let suffix := Str.path_suffix file_path in
      if String.eqb suffix ".json" then
        text <~ read_file file_path;;
        config <~ of_sum (json_load E text);;
        call_fresh config load_config
      else if String.eqb suffix ".yaml" then
        text <~ read_file file_path;;
        config <~ of_sum (yaml_safe_load E text);;
        call_fresh config load_config
      else if String.eqb suffix ".py" then
        code <~ read_file file_path;;
        binding <~ of_sum (exec_PROMPT E code);;
        match binding with
        | None => raise AttributeError
        | Some prompt =>
            if is_prompt prompt then ret prompt
            else raise (ValueError (Some not_a_prompt))
        end
      else raise (ValueError (Some (unsupported_file_type suffix)))
  | _ => raise AttributeError
  end.

(** [try: m finally: cleanup] *)
Definition finally {S A} (m : M S A) (cleanup : M S unit) : M S A :=
  fun s => let '(r, s') := m s in (r, snd (cleanup s')).

Definition could_not_find (url : string) : string :=
  "Could not find file at " ++ url.

Definition hub_suffixes : list string := ["py"; "json"; "yaml"].

(** [_load_from_hub(path)], open in [load_prompt_from_config].  The
    temporary directory is new, so the file written there did not exist
    and is gone when the [with] block is left. *)
Definition _load_from_hub
    (load_config : M cstate value) (path : string) : M world value :=
  let suffix := Str.last_dot_segment path in
  if negb (bool_decide (suffix ∈ hub_suffixes)) then
    raise (ValueError (Some "Unsupported file type."))
  else
    let full_url := URL_BASE ++ path in
    emit (EGet full_url);;;
    r <~ of_sum (requests_get E full_url);;
    if negb (status_code r =? 200)%Z then
      raise (ValueError (Some (could_not_find full_url)))
    else
      let file := tmpdirname E ++ "/prompt." ++ suffix in
      write_file file (content r);;;
      finally (_load_prompt_from_file load_config (VStr file))
              (remove_file file).

(** [load_prompt_from_config(config)] and [load_prompt(path)].  Each call
    costs one unit of fuel: an [example_prompt_path] may name a file that
    names itself, so the recursion need not end. *)
Fixpoint load_prompt_from_config (fuel : nat) : M cstate value :=
  match fuel with
  | O => out_of_fuel
  | S n =>
      prompt_type <~ pop_default "_type" (VStr "prompt");;
      if eq_str prompt_type "prompt" then _load_prompt
      else if eq_str prompt_type "few_shot" then
        _load_few_shot_prompt (load_prompt_from_config n) (load_prompt n)
      else raise (ValueError None)
  end
with load_prompt (fuel : nat) (path : value) : M world value :=
  match fuel with
  | O => out_of_fuel
  | S n =>
      match path with
      | VStr s =>
          if Str.startswith s "lc://prompts" then
            _load_from_hub (load_prompt_from_config n)
                           (relpath E s "lc://prompts/")
          else _load_prompt_from_file (load_prompt_from_config n) path
      | _ => _load_prompt_from_file (load_prompt_from_config n) path
      end
  end.

End Loader.

(** ** A small concrete environment, for running the loader on examples *)

Module Demo.

Definition simple_prompt : dict :=
  {[ "template" := VStr "Tell me a {adjective} joke." ]}.

Definition two_examples : value :=
  VList [VDict {[ "q" := VStr "2+2"; "a" := VStr "4" ]};
         VDict {[ "q" := VStr "3+3"; "a" := VStr "6" ]}].

(** A decoder that knows two documents. *)
Definition decode (text : string) : exn + value :=
  if String.eqb text "simple" then inr (VDict simple_prompt)
  else if String.eqb text "examples" then inr two_examples
  else inl (External "decode").

Definition env : Env := {|
  json_load := decode;
  yaml_safe_load := decode;
  construct := fun _ kwargs => inr kwargs;
  exec_PROMPT := fun _ => inr None;
  requests_get := fun _ => inr {| status_code := 404; content := "" |};
  relpath := fun path _ => path;
  format_value := fun _ => "<value>";
  tmpdirname := "/tmp/tmpabc"
|}.

Definition disk : world := {|
  files := {[ "joke.txt" := "Tell me a {adjective} joke.";
              "simple.json" := "simple";
              "simple.yaml" := "simple";
              "simple.yml" := "simple";
              "examples.json" := "examples";
              "examples.yml" := "examples" ]};
  log := []
|}.

Definition on_disk (d : dict) : cstate := {| config := d; outer := disk |}.

(** The same environment with a hub that serves every path. *)
Definition online : Env := {|
  json_load := decode;
  yaml_safe_load := decode;
  construct := fun _ kwargs => inr kwargs;
  exec_PROMPT := fun _ => inr None;
  requests_get := fun _ => inr {| status_code := 200; content := "simple" |};
  relpath := fun path _ => path;
  format_value := fun _ => "<value>";
  tmpdirname := "/tmp/tmpabc"
|}.

End Demo.

(** ** Predicates the statements use *)

(** Both a field and its [_path] twin are present. *)
Definition both_present (var_name : string) (d : dict) : Prop :=
  is_Some (d !! var_name) ∧ is_Some (d !! (var_name ++ "_path")).

(** [untouched k s s']: the value under [k] is the same in both states. *)
Definition untouched (k : string) (s s' : cstate) : Prop :=
  config s' !! k = config s !! k.

(** The world after one more call. *)
Definition logged (e : event) (w : world) : world :=
  {| files := files w; log := log w ++ [e] |}.

(** A constructor call whose keyword arguments carry the type tag. *)
Definition leaks_tag (e : event) : bool :=
  match e with
  | ENew _ kwargs => has_key "_type" kwargs
  | EGet _ => false
  end.

(** A call that does not hand the top-level type tag to a template
    constructor. *)
Definition tag_free (e : event) : Prop :=
  match e with
  | ENew RegexParser _ => True
  | ENew _ kwargs => kwargs !! "_type" = None
  | EGet _ => True
  end.

(** The log only grows, by tag-free calls. *)
Definition emits (w w' : world) : Prop :=
  ∃ l, log w' = (log w ++ l)%list ∧ Forall tag_free l.

(** With no type tag in the dictionary at the start, the log grows by
    tag-free calls and there is still no type tag at the end. *)
Definition tag_safe (s s' : cstate) : Prop :=
  config s !! "_type" = None →
  emits (outer s) (outer s') ∧ config s' !! "_type" = None.

(** Whatever [m] does without running out of fuel, [m'] does too. *)
Definition refines {S A} (m m' : M S A) : Prop :=
  ∀ s r s', m s = (r, s') → r ≠ OutOfFuel → m' s = (r, s').

(** The decoder [_load_examples] picks from the name of an examples file. *)
Definition examples_decoder (E : Env) (path : string)
  : option (string -> exn + value) :=
  if Str.endswith path ".json" then Some (json_load E)
  else if Str.endswith path ".yaml" || Str.endswith path ".yml"
  then Some (yaml_safe_load E)
  else None.

(** ** Sample configurations *)

(** Template references. *)
Definition markdown_reference : dict :=
  {[ "template_path" := VStr "joke.md"; "input_variables" := VList [] ]}.

Definition text_reference : dict :=
  {[ "template_path" := VStr "joke.txt"; "input_variables" := VList [] ]}.

Definition inline_and_reference : dict :=
  {[ "template" := VStr "Inline text."; "template_path" := VStr "joke.txt" ]}.

(** Output parsers. *)
Definition untagged_parser : dict :=
  {[ "template" := VStr "Q: {q}";
     "output_parser" := VDict {[ "regex" := VStr "(.*)" ]} ]}.

Definition regex_parser_config : dict :=
  {[ "_type" := VStr "regex_parser";
     "regex" := VStr "(.*)";
     "output_keys" := VList [VStr "answer"] ]}.

Definition prompt_with_parser : dict :=
  {[ "_type" := VStr "prompt";
     "template" := VStr "Q: {q}";
     "input_variables" := VList [VStr "q"];
     "output_parser" := VDict regex_parser_config ]}.

(** Examples, inline and by reference. *)
Definition inline_examples : dict := {[ "examples" := Demo.two_examples ]}.

Definition json_examples : dict := {[ "examples" := VStr "examples.json" ]}.

Definition yml_examples : dict := {[ "examples" := VStr "examples.yml" ]}.

Definition text_examples : dict := {[ "examples" := VStr "joke.txt" ]}.

Definition numeric_examples : dict := {[ "examples" := VInt 3 ]}.

Definition missing_examples : dict := {[ "examples" := VStr "missing.csv" ]}.

(** Whole prompts. *)
Definition example_prompt_config : dict :=
  {[ "_type" := VStr "prompt";
     "template" := VStr "Q: {q} A: {a}";
     "input_variables" := VList [VStr "q"; VStr "a"] ]}.

Definition few_shot_inline : dict :=
  {[ "_type" := VStr "few_shot";
     "prefix" := VStr "Answer the question.";
     "suffix" := VStr "Q: {q} A:";
     "input_variables" := VList [VStr "q"];
     "examples" := Demo.two_examples;
     "example_prompt" := VDict example_prompt_config ]}.

Definition few_shot_resolved : dict :=
  <["example_prompt" :=
      VObj PromptTemplate (delete "_type" example_prompt_config)]>
    (delete "_type" few_shot_inline).


Definition few_shot_two_example_prompts : dict :=
  {[ "prefix" := VStr "Answer the question.";
     "suffix_path" := VStr "joke.txt";
     "examples" := Demo.two_examples;
     "example_prompt" := VDict example_prompt_config;
     "example_prompt_path" := VStr "simple.json" ]}.

Definition few_shot_two_prefixes : dict :=
  {[ "_type" := VStr "few_shot";
     "suffix_path" := VStr "suffix.md";
     "prefix" := VStr "Answer the question.";
     "prefix_path" := VStr "joke.txt" ]}.

(** ** The file system around a load *)

(** The file [_load_from_hub] writes for a given suffix. *)
Definition tmp_file (E : Env) (suffix : string) : string :=
  tmpdirname E ++ "/prompt." ++ suffix.



(** ** A second environment: Python sources and a file that names itself *)

Module Scripted.

Definition prompt_object : value := VObj PromptTemplate Demo.simple_prompt.

(** What [exec] leaves under [PROMPT] for three sources. *)
Definition run (code : string) : exn + option value :=
  if String.eqb code "PROMPT = PromptTemplate(...)" then inr (Some prompt_object)
  else if String.eqb code "PROMPT = 3" then inr (Some (VInt 3))
  else inr None.

(** A few-shot configuration whose sub-template is to be read from the
    file that holds the configuration itself. *)
Definition self_reference : dict :=
  {[ "_type" := VStr "few_shot";
     "prefix" := VStr "Answer the question.";
     "suffix" := VStr "Q: {q} A:";
     "examples" := Demo.two_examples;
     "example_prompt_path" := VStr "loop.json" ]}.

Definition decode (text : string) : exn + value :=
  if String.eqb text "loop" then inr (VDict self_reference)
  else Demo.decode text.

Definition env : Env := {|
  json_load := decode;
  yaml_safe_load := decode;
  construct := fun _ kwargs => inr kwargs;
  exec_PROMPT := run;
  requests_get := fun _ => inr {| status_code := 404; content := "" |};
  relpath := fun path _ => path;
  format_value := fun _ => "<value>";
  tmpdirname := "/tmp/tmpabc"
|}.

Definition disk : world := {|
  files := {[ "good.py" := "PROMPT = PromptTemplate(...)";
              "number.py" := "PROMPT = 3";
              "empty.py" := "x = 1";
              "loop.json" := "loop";
              "joke.txt" := "Tell me a {adjective} joke." ]};
  log := []
|}.

End Scripted.


Definition few_shot_without_example_prompt : dict :=
  {[ "prefix" := VStr "Answer the question.";
     "suffix" := VStr "Q: {q} A:";
     "examples" := Demo.two_examples ]}.

Definition few_shot_without_examples : dict :=
  {[ "prefix" := VStr "Answer the question.";
     "suffix" := VStr "Q: {q} A:";
     "example_prompt" := VDict example_prompt_config ]}.

(** A path the hub accepts: one of the three suffixes on its own, or
    anything followed by a dot and one of them. *)
Definition hub_shape (path : string) : Prop :=
  path ∈ hub_suffixes
  ∨ ∃ stem suffix, suffix ∈ hub_suffixes ∧ path = stem ++ "." ++ suffix.

Definition few_shot_by_reference : dict :=
  {[ "prefix" := VStr "Answer the question.";
     "suffix" := VStr "Q: {q} A:";
     "examples" := Demo.two_examples;
     "example_prompt_path" := VStr "simple.json" ]}.

(** ** Proof steps used more than once *)

(** A closed key is none of the listed keys. *)
Ltac not_a_key :=
  let H := fresh in
  intros H;
  repeat (apply elem_of_cons in H as [H|H]; [discriminate H|]);
  by apply elem_of_nil in H.

(** Case analysis on every [match] in a hypothesis. *)
Ltac split_matches H :=
  repeat match type of H with
         | context [match ?x with _ => _ end] => destruct x
         end.

(** ** Basic facts *)

Lemma string_length_app (a b : string) :
  String.length (a ++ b) = String.length a + String.length b.
Proof. induction a as [|c a IH]; simpl; [reflexivity | now rewrite IH]. Qed.

Lemma path_key_ne (var_name : string) : var_name ++ "_path" ≠ var_name.
Proof.
  intros H. apply (f_equal String.length) in H.
  rewrite string_length_app in H. simpl in H. lia.
Qed.

Lemma has_key_true k (d : dict) : has_key k d = true ↔ is_Some (d !! k).
Proof.
  unfold has_key. destruct (d !! k); split; intros H;
    try done; try (by eexists); by destruct H.
Qed.

Lemma has_key_false k (d : dict) : has_key k d = false ↔ d !! k = None.
Proof. unfold has_key. destruct (d !! k); split; intros H; done. Qed.

Lemma eq_str_true (v : value) (s : string) : eq_str v s = true ↔ v = VStr s.
Proof.
  destruct v; cbn; try (split; intros; discriminate).
  rewrite String.eqb_eq. split; [intros ->; reflexivity | intros [=]; assumption].
Qed.

Lemma eq_str_false (v : value) (s : string) : eq_str v s = false ↔ v ≠ VStr s.
Proof.
  rewrite <- eq_str_true. destruct (eq_str v s); split; intros; congruence.
Qed.


Lemma bind_frame {S A B} (P : S -> S -> Prop) (m : M S A) (k : A -> M S B)
    (s s' : S) (r : res B) :
  (∀ s, P s s) → (∀ s1 s2 s3, P s1 s2 → P s2 s3 → P s1 s3) →
  (∀ s r' s', m s = (r', s') → P s s') →
  (∀ a s r' s', k a s = (r', s') → P s s') →
  bind m k s = (r, s') → P s s'.
Proof.
  intros Hrefl Htrans Hm Hk. unfold bind.
  destruct (m s) as [[a| |] s1] eqn:Hms; intros H.
  - eapply Htrans; [eapply Hm, Hms | eapply Hk, H].
  - inversion H; subst. eapply Hm, Hms.
  - inversion H; subst. eapply Hm, Hms.
Qed.

(** ** What each function does, case by case *)

(** What [_load_template] does, case by case. *)
Lemma _load_template_cases (var_name : string) (cfg : dict) (w : world) :
  _load_template var_name {| config := cfg; outer := w |} =
  match cfg !! (var_name ++ "_path") with
  | None => (Ok tt, {| config := cfg; outer := w |})
  | Some p =>
      match cfg !! var_name with
      | Some _ => (Raise (ValueError (Some (both_provided var_name))),
                   {| config := cfg; outer := w |})
      | None =>
          let popped := delete (var_name ++ "_path") cfg in
          match p with
          | VStr path =>
              if String.eqb (Str.path_suffix path) ".txt" then
                match files w !! path with
                | Some text =>
                    (Ok tt, {| config := <[var_name := VStr text]> popped;
                               outer := w |})
                | None =>
                    (Raise (OSError path), {| config := popped; outer := w |})
                end
              else (Raise (ValueError None), {| config := popped; outer := w |})
          | _ => (Raise TypeError, {| config := popped; outer := w |})
          end
      end
  end.
Proof.
  unfold _load_template, bind, contains, has_key, pop, as_path, lift,
    read_file, setitem, raise, ret; cbn.
  destruct (cfg !! (var_name ++ "_path")) as [p|] eqn:Hp; cbn; [|reflexivity].
  destruct (cfg !! var_name) as [v|] eqn:Hv; cbn; [reflexivity|].
  rewrite Hp.
  destruct p; cbn; try reflexivity.
  destruct (String.eqb (Str.path_suffix s) ".txt"); cbn; [|reflexivity].
  destruct (files w !! s); reflexivity.
Qed.

(** [_load_template] leaves the world and every other key alone. *)
Lemma _load_template_frame (var_name : string) (st st' : cstate) r :
  _load_template var_name st = (r, st') →
  outer st' = outer st ∧
  ∀ k, k ≠ var_name → k ≠ var_name ++ "_path" →
       config st' !! k = config st !! k.
Proof.
  destruct st as [cfg w]. rewrite _load_template_cases. cbn.
  intros H.
  split_matches H;
    inversion H; subst; cbn; (split; [reflexivity|]); intros k Hk Hp;
    rewrite ?lookup_insert_ne, ?lookup_delete_ne by congruence; reflexivity.
Qed.

Lemma _load_template_conflict (var_name : string) (st : cstate) :
  both_present var_name (config st) →
  _load_template var_name st
  = (Raise (ValueError (Some (both_provided var_name))), st).
Proof.
  destruct st as [cfg w]. intros [[v Hv] [p Hp]]. cbn in Hv, Hp.
  rewrite _load_template_cases, Hp, Hv. reflexivity.
Qed.

Lemma _load_template_no_path (var_name : string) (st : cstate) :
  config st !! (var_name ++ "_path") = None →
  _load_template var_name st = (Ok tt, st).
Proof.
  destruct st as [cfg w]. cbn [config]. intros Hp.
  rewrite _load_template_cases, Hp. reflexivity.
Qed.

(** A call never creates a conflict, and a call that returns leaves no
    [_path] twin behind. *)
Lemma _load_template_invariant (var_name : string) (st st' : cstate) r :
  _load_template var_name st = (r, st') →
  (¬ both_present var_name (config st) →
   ¬ both_present var_name (config st')) ∧
  (r = Ok tt → config st' !! (var_name ++ "_path") = None).
Proof.
  destruct st as [cfg w]. rewrite _load_template_cases. cbn.
  pose proof (path_key_ne var_name) as Hne.
  intros H. unfold both_present.
  destruct (cfg !! (var_name ++ "_path")) as [p|] eqn:Hp.
  - destruct (cfg !! var_name) as [v|] eqn:Hv.
    + inversion H; subst; cbn. split; [|discriminate].
      intros Hno. exfalso. apply Hno. rewrite ?Hp, ?Hv. split; by eexists.
    + split_matches H;
        inversion H; subst; cbn; split; try discriminate;
        intros _; try intros [_ [x Hx]];
        rewrite ?lookup_insert_ne, ?lookup_delete_eq in * by congruence;
        done.
  - inversion H; subst; cbn. split; [|intros _; exact Hp].
    intros _ [_ [x Hx]]. congruence.
Qed.

Lemma _load_examples_cases (E : Env) (cfg : dict) (w : world) :
  _load_examples E {| config := cfg; outer := w |} =
  let st := {| config := cfg; outer := w |} in
  match cfg !! "examples" with
  | None => (Raise (KeyError "examples"), st)
  | Some (VList _) => (Ok tt, st)
  | Some (VStr path) =>
      match files w !! path with
      | None => (Raise (OSError path), st)
      | Some text =>
          match examples_decoder E path with
          | None => (Raise (ValueError (Some invalid_file_format)), st)
          | Some decode =>
              match decode text with
              | inl e => (Raise e, st)
              | inr examples =>
                  (Ok tt, {| config := <["examples" := examples]> cfg;
                             outer := w |})
              end
          end
      end
  | Some _ => (Raise (ValueError (Some invalid_examples_format)), st)
  end.
Proof.
  unfold _load_examples, examples_decoder, bind, getitem, lift, read_file,
    of_sum, setitem, raise, ret; cbn.
  destruct (cfg !! "examples") as [ex|]; cbn; [|reflexivity].
  destruct ex as [| | |path| | |]; cbn; try reflexivity.
  destruct w as [fs lg]; cbn.
  destruct (fs !! path) as [text|]; cbn; [|reflexivity].
  destruct (Str.endswith path ".json"); cbn.
  - destruct (json_load E text); reflexivity.
  - destruct (Str.endswith path ".yaml" || Str.endswith path ".yml"); cbn;
      [|reflexivity].
    destruct (yaml_safe_load E text); reflexivity.
Qed.

Lemma _load_examples_frame (E : Env) (st st' : cstate) r :
  _load_examples E st = (r, st') →
  outer st' = outer st ∧
  ∀ k, k ≠ "examples" → config st' !! k = config st !! k.
Proof.
  destruct st as [cfg w]. rewrite _load_examples_cases. cbn.
  intros H.
  split_matches H;
    inversion H; subst; cbn; (split; [reflexivity|]); intros k Hk;
    rewrite ?lookup_insert_ne by congruence; reflexivity.
Qed.

(** What [_load_output_parser] does, case by case. *)
Lemma _load_output_parser_cases (E : Env) (cfg : dict) (w : world) :
  _load_output_parser E {| config := cfg; outer := w |} =
  let st := {| config := cfg; outer := w |} in
  match cfg !! "output_parser" with
  | None | Some VNone => (Ok tt, st)
  | Some (VDict _config) =>
      match _config !! "_type" with
      | None => (Raise (KeyError "_type"), st)
      | Some tag =>
          if eq_str tag "regex_parser" then
            let w' := logged (ENew RegexParser _config) w in
            match construct E RegexParser _config with
            | inl e => (Raise e, {| config := cfg; outer := w' |})
            | inr attrs =>
                (Ok tt,
                 {| config := <["output_parser" := VObj RegexParser attrs]> cfg;
                    outer := w' |})
            end
          else (Raise (ValueError (Some (unsupported_output_parser E tag))), st)
      end
  | Some _ => (Raise TypeError, st)
  end.
Proof.
  unfold _load_output_parser, bind, contains, has_key, getitem, subscript,
    as_kwargs, lift, new, emit, of_sum, setitem, raise, ret, logged; cbn.
  destruct (cfg !! "output_parser") as [op|] eqn:Hop; cbn; [|reflexivity].
  rewrite Hop.
  destruct op as [| | | | |d|]; cbn; try reflexivity.
  destruct (d !! "_type") as [tag|]; cbn; [|reflexivity].
  destruct (eq_str tag "regex_parser"); cbn; [|reflexivity].
  destruct (construct E RegexParser d); reflexivity.
Qed.

(** Keys the later steps leave alone. *)
Lemma _load_output_parser_frame (E : Env) (st st' : cstate) r :
  _load_output_parser E st = (r, st') →
  files (outer st') = files (outer st) ∧
  ∀ k, k ≠ "output_parser" → config st' !! k = config st !! k.
Proof.
  destruct st as [cfg w]. rewrite _load_output_parser_cases. cbn.
  intros H.
  split_matches H;
    inversion H; subst; cbn; (split; [reflexivity|]); intros k Hk;
    rewrite ?lookup_insert_ne by congruence; reflexivity.
Qed.

(** The parts of the dispatch that hold for every configuration: an absent
    or null [output_parser] changes nothing, a tag other than
    ["regex_parser"] raises a [ValueError] that prints the tag, and a parser
    that the constructor accepts replaces the nested dictionary. *)
Lemma _load_output_parser_absent (E : Env) (st : cstate) :
  config st !! "output_parser" = None ∨ config st !! "output_parser" = Some VNone →
  _load_output_parser E st = (Ok tt, st).
Proof.
  destruct st as [cfg w]. cbn [config]. rewrite _load_output_parser_cases.
  intros [H|H]; cbn zeta; rewrite H; reflexivity.
Qed.

Lemma _load_output_parser_other_tag
    (E : Env) (cfg _config : dict) (w : world) (tag : value) :
  cfg !! "output_parser" = Some (VDict _config) →
  _config !! "_type" = Some tag →
  tag ≠ VStr "regex_parser" →
  _load_output_parser E {| config := cfg; outer := w |}
  = (Raise (ValueError (Some ("Unsupported output parser " ++ fstr E tag))),
     {| config := cfg; outer := w |}).
Proof.
  intros Hop Hty Hne. rewrite _load_output_parser_cases. cbn zeta.
  rewrite Hop, Hty. apply eq_str_false in Hne. rewrite Hne. reflexivity.
Qed.

Lemma _load_output_parser_regex
    (E : Env) (cfg _config attrs : dict) (w : world) :
  cfg !! "output_parser" = Some (VDict _config) →
  _config !! "_type" = Some (VStr "regex_parser") →
  construct E RegexParser _config = inr attrs →
  _load_output_parser E {| config := cfg; outer := w |}
  = (Ok tt, {| config := <["output_parser" := VObj RegexParser attrs]> cfg;
               outer := logged (ENew RegexParser _config) w |}).
Proof.
  intros Hop Hty Hc. rewrite _load_output_parser_cases. cbn zeta.
  rewrite Hop, Hty. cbn. rewrite Hc. reflexivity.
Qed.

Lemma _load_output_parser_regex_refused
    (E : Env) (cfg _config : dict) (e : exn) (w : world) :
  cfg !! "output_parser" = Some (VDict _config) →
  _config !! "_type" = Some (VStr "regex_parser") →
  construct E RegexParser _config = inl e →
  _load_output_parser E {| config := cfg; outer := w |}
  = (Raise e, {| config := cfg;
                 outer := logged (ENew RegexParser _config) w |}).
Proof.
  intros Hop Hty Hc. rewrite _load_output_parser_cases. cbn zeta.
  rewrite Hop, Hty. cbn. rewrite Hc. reflexivity.
Qed.




Lemma load_prompt_from_config_pop (E : Env) (fuel : nat) (cfg : dict) (w : world) :
  load_prompt_from_config E (S fuel) {| config := cfg; outer := w |}
  = let st0 := {| config := delete "_type" cfg; outer := w |} in
    match cfg !! "_type" with
    | None => _load_prompt E st0
    | Some tag =>
        if eq_str tag "prompt" then _load_prompt E st0
        else if eq_str tag "few_shot" then
          _load_few_shot_prompt E (load_prompt_from_config E fuel)
                                (load_prompt E fuel) st0
        else (Raise (ValueError None), st0)
    end.
Proof.
  cbn [load_prompt_from_config]. unfold bind at 1, pop_default. cbn [config].
  destruct (cfg !! "_type") as [tag|] eqn:Htag; cbn zeta.
  - destruct (eq_str tag "prompt"); [reflexivity|].
    destruct (eq_str tag "few_shot"); reflexivity.
  - rewrite delete_id by exact Htag. reflexivity.
Qed.

Lemma load_prompt_from_config_prompt
    (E : Env) (fuel : nat) (cfg : dict) (w : world) :
  cfg !! "_type" = None ∨ cfg !! "_type" = Some (VStr "prompt") →
  load_prompt_from_config E (S fuel) {| config := cfg; outer := w |}
  = _load_prompt E {| config := delete "_type" cfg; outer := w |}.
Proof.
  intros Htag. rewrite load_prompt_from_config_pop. cbn zeta.
  destruct Htag as [-> | ->]; reflexivity.
Qed.

Lemma _load_prompt_from_file_decoded
    (E : Env) (load_config : M cstate value) (file_path text : string)
    (decode : string -> exn + value) (cfg : value) (w : world) :
  (Str.path_suffix file_path = ".json" ∧ decode = json_load E)
  ∨ (Str.path_suffix file_path = ".yaml" ∧ decode = yaml_safe_load E) →
  files w !! file_path = Some text →
  decode text = inr cfg →
  _load_prompt_from_file E load_config (VStr file_path) w
  = call_fresh cfg load_config w.
Proof.
  intros Hfmt Hfile Hdec. unfold _load_prompt_from_file. cbn zeta.
  destruct Hfmt as [[-> ->] | [-> ->]]; cbn [String.eqb Ascii.eqb Bool.eqb];
    unfold bind, read_file, of_sum, ret; rewrite Hfile, Hdec; reflexivity.
Qed.

Lemma _load_from_hub_cases
    (E : Env) (load_config : M cstate value) (path : string) (w : world) :
  _load_from_hub E load_config path w =
  let suffix := Str.last_dot_segment path in
  let full_url := URL_BASE ++ path in
  let fetched := logged (EGet full_url) w in
  if bool_decide (suffix ∈ hub_suffixes) then
    match requests_get E full_url with
    | inl e => (Raise e, fetched)
    | inr r =>
        if (status_code r =? 200)%Z then
          let file := tmpdirname E ++ "/prompt." ++ suffix in
          finally (_load_prompt_from_file E load_config (VStr file))
                  (remove_file file)
                  {| files := <[file := content r]> (files w);
                     log := log fetched |}
        else (Raise (ValueError (Some (could_not_find full_url))), fetched)
    end
  else (Raise (ValueError (Some "Unsupported file type.")), w).
Proof.
  unfold _load_from_hub. cbn zeta.
  destruct (bool_decide _); cbn [negb]; [|reflexivity].
  unfold bind at 1, emit. unfold bind at 1, of_sum.
  destruct (requests_get E _) as [e|r]; [reflexivity|]. unfold ret.
  destruct (status_code r =? 200)%Z; cbn [negb]; reflexivity.
Qed.

(** ** Keys a step leaves alone *)

Lemma untouched_refl k s : untouched k s s.
Proof. reflexivity. Qed.

Lemma untouched_trans k s1 s2 s3 :
  untouched k s1 s2 → untouched k s2 s3 → untouched k s1 s3.
Proof. unfold untouched. congruence. Qed.

Lemma untouched_bind {A B} k (m : M cstate A) (f : A -> M cstate B) s r s' :
  (∀ s r' s', m s = (r', s') → untouched k s s') →
  (∀ a s r' s', f a s = (r', s') → untouched k s s') →
  bind m f s = (r, s') → untouched k s s'.
Proof.
  apply (bind_frame (untouched k)); [apply untouched_refl | apply untouched_trans].
Qed.

Lemma untouched_lift {A} k (m : M world A) s r s' :
  lift m s = (r, s') → untouched k s s'.
Proof.
  unfold lift. destruct (m (outer s)) as [r' w']. intros [= <- <-]. reflexivity.
Qed.

Lemma untouched_setitem k k' v s r s' :
  k' ≠ k → setitem k' v s = (r, s') → untouched k s s'.
Proof.
  intros Hne [= <- <-]. unfold untouched. cbn. by rewrite lookup_insert_ne.
Qed.

Lemma untouched_pop k k' s r s' :
  k' ≠ k → pop k' s = (r, s') → untouched k s s'.
Proof.
  intros Hne. unfold pop. destruct (config s !! k'); intros [= <- <-];
    unfold untouched; cbn; [by rewrite lookup_delete_ne | reflexivity].
Qed.

Lemma untouched_call_nested k k' v f s r s' :
  k' ≠ k → call_nested k' v f s = (r, s') → untouched k s s'.
Proof.
  intros Hne. unfold call_nested, raise.
  destruct v; try (intros [= <- <-]; reflexivity).
  destruct (f _) as [r' st']. intros [= <- <-]. unfold untouched. cbn.
  by rewrite lookup_insert_ne.
Qed.

Lemma untouched_load_template k var_name s r s' :
  k ≠ var_name → k ≠ var_name ++ "_path" →
  _load_template var_name s = (r, s') → untouched k s s'.
Proof.
  intros H1 H2 H. apply _load_template_frame in H as [_ H]. by apply H.
Qed.

Lemma untouched_load_examples E k s r s' :
  k ≠ "examples" → _load_examples E s = (r, s') → untouched k s s'.
Proof. intros H1 H. apply _load_examples_frame in H as [_ H]. by apply H. Qed.

Lemma untouched_load_output_parser E k s r s' :
  k ≠ "output_parser" → _load_output_parser E s = (r, s') → untouched k s s'.
Proof.
  intros H1 H. apply _load_output_parser_frame in H as [_ H]. by apply H.
Qed.

(** Neither variant touches a key it does not resolve; in particular the
    popped type tag is not put back. *)
Lemma _load_prompt_untouched (E : Env) (k : string) s r s' :
  k ∉ ["template"; "template_path"; "output_parser"] →
  _load_prompt E s = (r, s') → untouched k s s'.
Proof.
  intros Hk. unfold _load_prompt.
  apply untouched_bind.
  { intros ???. apply untouched_load_template; set_solver. }
  intros _ ???. apply untouched_bind.
  { intros ???. apply untouched_load_output_parser; set_solver. }
  intros _ ???. apply untouched_lift.
Qed.

Lemma _load_few_shot_prompt_untouched
    (E : Env) (load_config : M cstate value)
    (load_path : value -> M world value) (k : string) s r s' :
  k ∉ ["suffix"; "suffix_path"; "prefix"; "prefix_path"; "example_prompt";
       "example_prompt_path"; "examples"; "output_parser"] →
  _load_few_shot_prompt E load_config load_path s = (r, s') →
  untouched k s s'.
Proof.
  intros Hk. unfold _load_few_shot_prompt.
  apply untouched_bind.
  { intros ???. apply untouched_load_template; set_solver. }
  intros _ ???. apply untouched_bind.
  { intros ???. apply untouched_load_template; set_solver. }
  intros _ ???. apply untouched_bind.
  { intros ??? [= <- <-]. reflexivity. }
  intros b ???. apply untouched_bind.
  { intros ???. destruct b.
    - apply untouched_bind; [intros ??? [= <- <-]; reflexivity|].
      intros b ???. destruct b; [intros [= <- <-]; reflexivity|].
      apply untouched_bind; [intros ???; apply untouched_pop; set_solver|].
      intros p ???. apply untouched_bind; [intros ???; apply untouched_lift|].
      intros v ???. apply untouched_setitem; set_solver.
    - apply untouched_bind.
      { intros ???. unfold getitem. destruct (config _ !! _);
          intros [= <- <-]; reflexivity. }
      intros v ???. apply untouched_bind.
      { intros ???. apply untouched_call_nested; set_solver. }
      intros p ???. apply untouched_setitem; set_solver. }
  intros _ ???. apply untouched_bind.
  { intros ???. apply untouched_load_examples; set_solver. }
  intros _ ???. apply untouched_bind.
  { intros ???. apply untouched_load_output_parser; set_solver. }
  intros _ ???. apply untouched_lift.
Qed.

Lemma _load_prompt_keeps_tag (E : Env) s r s' :
  _load_prompt E s = (r, s') → untouched "_type" s s'.
Proof. apply _load_prompt_untouched. not_a_key. Qed.

Lemma _load_few_shot_prompt_keeps_tag
    (E : Env) (load_config : M cstate value)
    (load_path : value -> M world value) s r s' :
  _load_few_shot_prompt E load_config load_path s = (r, s') →
  untouched "_type" s s'.
Proof. apply _load_few_shot_prompt_untouched. not_a_key. Qed.

Lemma both_present_untouched (var_name : string) (s s' : cstate) :
  untouched var_name s s' → untouched (var_name ++ "_path") s s' →
  both_present var_name (config s) → both_present var_name (config s').
Proof. unfold untouched, both_present. intros -> ->. tauto. Qed.

(** ** What the loader sends to its collaborators *)

Lemma emits_refl w : emits w w.
Proof. exists []. split; [by rewrite app_nil_r | constructor]. Qed.

Lemma emits_same_log w w' : log w' = log w → emits w w'.
Proof. intros H. exists []. split; [by rewrite app_nil_r | constructor]. Qed.

Lemma emits_trans w1 w2 w3 : emits w1 w2 → emits w2 w3 → emits w1 w3.
Proof.
  intros (l1 & H1 & F1) (l2 & H2 & F2). exists (l1 ++ l2)%list.
  split; [by rewrite H2, H1, app_assoc | by apply Forall_app].
Qed.

Lemma emits_logged e w : tag_free e → emits w (logged e w).
Proof. intros H. exists [e]. split; [reflexivity | by constructor]. Qed.

Lemma tag_safe_refl s : tag_safe s s.
Proof. intros H. split; [apply emits_refl | exact H]. Qed.

Lemma tag_safe_trans s1 s2 s3 : tag_safe s1 s2 → tag_safe s2 s3 → tag_safe s1 s3.
Proof.
  intros H12 H23 H1. destruct (H12 H1) as [E12 H2].
  destruct (H23 H2) as [E23 H3]. split; [by eapply emits_trans | exact H3].
Qed.

Lemma tag_safe_bind {A B} (m : M cstate A) (f : A -> M cstate B) s r s' :
  (∀ s r' s', m s = (r', s') → tag_safe s s') →
  (∀ a s r' s', f a s = (r', s') → tag_safe s s') →
  bind m f s = (r, s') → tag_safe s s'.
Proof. apply (bind_frame tag_safe); [apply tag_safe_refl | apply tag_safe_trans]. Qed.

Lemma tag_safe_quiet s s' :
  outer s' = outer s → untouched "_type" s s' → tag_safe s s'.
Proof.
  intros Hw Hk H. split; [rewrite Hw; apply emits_refl | by rewrite Hk].
Qed.

Lemma tag_safe_lift {A} (m : M world A) s r s' :
  (∀ w r' w', m w = (r', w') → emits w w') →
  lift m s = (r, s') → tag_safe s s'.
Proof.
  intros Hm. unfold lift. destruct (m (outer s)) as [r' w'] eqn:Hms.
  intros [= <- <-] H. split; [cbn; by eapply Hm | exact H].
Qed.

Lemma new_emits (E : Env) (c : pyclass) (kwargs : dict) w r w' :
  tag_free (ENew c kwargs) → new E c kwargs w = (r, w') → emits w w'.
Proof.
  intros Hfree. unfold new, bind, emit, of_sum, ret, raise.
  destruct (construct E c kwargs); intros [= <- <-];
    by apply (emits_logged (ENew c kwargs)).
Qed.

Lemma tag_safe_construct (E : Env) (c : pyclass) s r s' :
  c ≠ RegexParser →
  lift (new E c (config s)) s = (r, s') → tag_safe s s'.
Proof.
  intros Hc H Htag. revert H. unfold lift.
  destruct (new E c (config s) (outer s)) as [r' w'] eqn:Hnew.
  intros [= <- <-]. split; [|exact Htag]. cbn.
  eapply new_emits; [|exact Hnew]. destruct c; cbn; congruence.
Qed.

Lemma tag_safe_load_template var_name s r s' :
  "_type" ≠ var_name → "_type" ≠ var_name ++ "_path" →
  _load_template var_name s = (r, s') → tag_safe s s'.
Proof.
  intros H1 H2 H. apply tag_safe_quiet.
  - apply _load_template_frame in H as [Hw _]. exact Hw.
  - eapply untouched_load_template; [exact H1 | exact H2 | exact H].
Qed.

Lemma tag_safe_load_examples E s r s' :
  _load_examples E s = (r, s') → tag_safe s s'.
Proof.
  intros H. apply tag_safe_quiet.
  - apply _load_examples_frame in H as [Hw _]. exact Hw.
  - eapply untouched_load_examples; [discriminate | exact H].
Qed.

Lemma tag_safe_load_output_parser E s r s' :
  _load_output_parser E s = (r, s') → tag_safe s s'.
Proof.
  intros H Htag. split.
  - destruct s as [cfg w]. rewrite _load_output_parser_cases in H. cbn in H.
    split_matches H;
      inversion H; subst; cbn;
      first [apply emits_refl | by apply (emits_logged (ENew RegexParser _))].
  - erewrite untouched_load_output_parser; [exact Htag | discriminate | exact H].
Qed.

Lemma emits_bind {A B} (m : M world A) (f : A -> M world B) w r w' :
  (∀ w r' w', m w = (r', w') → emits w w') →
  (∀ a w r' w', f a w = (r', w') → emits w w') →
  bind m f w = (r, w') → emits w w'.
Proof. apply (bind_frame emits); [apply emits_refl | apply emits_trans]. Qed.

Lemma read_file_emits path w r w' : read_file path w = (r, w') → emits w w'.
Proof.
  unfold read_file. destruct (files w !! path); intros [= <- <-]; apply emits_refl.
Qed.

Lemma of_sum_emits {A} (x : exn + A) w r w' :
  @of_sum world A x w = (r, w') → emits w w'.
Proof. destruct x; intros [= <- <-]; apply emits_refl. Qed.

Lemma call_fresh_emits (v : value) (f : M cstate value) w r w' :
  (∀ s r' s', f s = (r', s') → emits (outer s) (outer s')) →
  call_fresh v f w = (r, w') → emits w w'.
Proof.
  intros Hf. unfold call_fresh, raise.
  destruct v; try (intros [= <- <-]; apply emits_refl).
  destruct (f _) as [r' s'] eqn:Hfs. intros [= <- <-].
  apply Hf in Hfs. exact Hfs.
Qed.

Lemma tag_safe_call_nested k (v : value) (f : M cstate value) s r s' :
  k ≠ "_type" →
  (∀ s r' s', f s = (r', s') → emits (outer s) (outer s')) →
  call_nested k v f s = (r, s') → tag_safe s s'.
Proof.
  intros Hk Hf H Htag. split.
  - revert H. unfold call_nested, raise.
    destruct v; try (intros [= <- <-]; apply emits_refl).
    destruct (f _) as [r' st'] eqn:Hfs. intros [= <- <-].
    apply Hf in Hfs. exact Hfs.
  - erewrite untouched_call_nested; [exact Htag | exact Hk | exact H].
Qed.

Lemma _load_prompt_tag_safe (E : Env) s r s' :
  _load_prompt E s = (r, s') → tag_safe s s'.
Proof.
  unfold _load_prompt. apply tag_safe_bind.
  { intros ???. apply tag_safe_load_template; discriminate. }
  intros _ ???. apply tag_safe_bind.
  { intros ???. apply tag_safe_load_output_parser. }
  intros _ ???. apply tag_safe_construct. discriminate.
Qed.

Lemma _load_few_shot_prompt_tag_safe
    (E : Env) (load_config : M cstate value)
    (load_path : value -> M world value) :
  (∀ s r s', load_config s = (r, s') → emits (outer s) (outer s')) →
  (∀ p w r w', load_path p w = (r, w') → emits w w') →
  ∀ s r s', _load_few_shot_prompt E load_config load_path s = (r, s') →
            tag_safe s s'.
Proof.
  intros Hconfig Hpath s r s'. unfold _load_few_shot_prompt.
  apply tag_safe_bind.
  { intros ???. apply tag_safe_load_template; discriminate. }
  intros _ ???. apply tag_safe_bind.
  { intros ???. apply tag_safe_load_template; discriminate. }
  intros _ ???. apply tag_safe_bind.
  { intros ??? [= <- <-]. apply tag_safe_refl. }
  intros b ???. apply tag_safe_bind.
  { intros ???. destruct b.
    - apply tag_safe_bind; [intros ??? [= <- <-]; apply tag_safe_refl|].
      intros b ???. destruct b; [intros [= <- <-]; apply tag_safe_refl|].
      apply tag_safe_bind.
      { intros ??? H. apply tag_safe_quiet.
        - revert H. unfold pop. destruct (config _ !! _); by intros [= <- <-].
        - eapply untouched_pop; [|exact H]. discriminate. }
      intros p ???. apply tag_safe_bind.
      { intros ???. apply tag_safe_lift. apply Hpath. }
      intros v ??? H. apply tag_safe_quiet.
      + by inversion H.
      + eapply untouched_setitem; [|exact H]. discriminate.
    - apply tag_safe_bind.
      { intros ???. unfold getitem. destruct (config _ !! _);
          intros [= <- <-]; apply tag_safe_refl. }
      intros v ???. apply tag_safe_bind.
      { intros ???. apply tag_safe_call_nested; [discriminate | exact Hconfig]. }
      intros p ??? H. apply tag_safe_quiet.
      + by inversion H.
      + eapply untouched_setitem; [|exact H]. discriminate. }
  intros _ ???. apply tag_safe_bind.
  { intros ???. apply tag_safe_load_examples. }
  intros _ ???. apply tag_safe_bind.
  { intros ???. apply tag_safe_load_output_parser. }
  intros _ ???. apply tag_safe_construct. discriminate.
Qed.

Lemma _load_prompt_from_file_emits
    (E : Env) (load_config : M cstate value) (file : value) w r w' :
  (∀ s r' s', load_config s = (r', s') → emits (outer s) (outer s')) →
  _load_prompt_from_file E load_config file w = (r, w') → emits w w'.
Proof.
  intros Hconfig. unfold _load_prompt_from_file, raise.
  destruct file; try (intros [= <- <-]; apply emits_refl).
  cbn zeta.
  repeat match goal with
         | |- context [if ?b then _ else _] => destruct b
         end;
    try (intros [= <- <-]; apply emits_refl).
  - apply emits_bind; [intros ???; apply read_file_emits|].
    intros text ???. apply emits_bind; [intros ???; apply of_sum_emits|].
    intros cfg ???. by apply call_fresh_emits.
  - apply emits_bind; [intros ???; apply read_file_emits|].
    intros text ???. apply emits_bind; [intros ???; apply of_sum_emits|].
    intros cfg ???. by apply call_fresh_emits.
  - apply emits_bind; [intros ???; apply read_file_emits|].
    intros text ???. apply emits_bind; [intros ???; apply of_sum_emits|].
    intros [v|] ???; unfold ret, raise;
      [destruct (is_prompt v)|]; intros [= <- <-]; apply emits_refl.
Qed.

Lemma _load_from_hub_emits
    (E : Env) (load_config : M cstate value) (path : string) w r w' :
  (∀ s r' s', load_config s = (r', s') → emits (outer s) (outer s')) →
  _load_from_hub E load_config path w = (r, w') → emits w w'.
Proof.
  intros Hconfig. unfold _load_from_hub. cbn zeta.
  destruct (negb _); [intros [= <- <-]; apply emits_refl|].
  apply emits_bind.
  { intros ??? [= <- <-]. by apply (emits_logged (EGet _)). }
  intros _ ???. apply emits_bind; [intros ???; apply of_sum_emits|].
  intros resp ???. destruct (negb _); [intros [= <- <-]; apply emits_refl|].
  apply emits_bind.
  { intros ??? [= <- <-]. by apply emits_same_log. }
  intros _ ???. unfold finally.
  destruct (_load_prompt_from_file _ _ _ _) as [rf wf] eqn:Hfile.
  intros [= <- <-]. eapply emits_trans.
  - eapply _load_prompt_from_file_emits; [exact Hconfig | exact Hfile].
  - by apply emits_same_log.
Qed.

(** Every call the loader makes while it resolves a configuration or a
    path is tag-free: the top-level type tag never reaches the constructor
    of a template. *)
Lemma loader_emits (E : Env) (fuel : nat) :
  (∀ s r s', load_prompt_from_config E fuel s = (r, s') →
             emits (outer s) (outer s'))
  ∧ (∀ p w r w', load_prompt E fuel p w = (r, w') → emits w w').
Proof.
  induction fuel as [|n [IHconfig IHpath]].
  { split; [intros ??? [= <- <-] | intros ???? [= <- <-]]; apply emits_refl. }
  split.
  - intros [cfg w] r s'. rewrite load_prompt_from_config_pop. cbn zeta.
    assert (delete "_type" cfg !! "_type" = None) as Hpopped
      by apply lookup_delete_eq.
    destruct (cfg !! "_type") as [tag|].
    + destruct (eq_str tag "prompt").
      { intros H. by apply (_load_prompt_tag_safe E _ _ _ H). }
      destruct (eq_str tag "few_shot").
      { intros H.
        by apply (_load_few_shot_prompt_tag_safe E _ _ IHconfig IHpath _ _ _ H). }
      intros [= <- <-]. apply emits_refl.
    + intros H. by apply (_load_prompt_tag_safe E _ _ _ H).
  - intros p w r w'. cbn [load_prompt].
    destruct p; try (by apply _load_prompt_from_file_emits).
    destruct (Str.startswith _ _);
      [by apply _load_from_hub_emits | by apply _load_prompt_from_file_emits].
Qed.

(** ** More fuel changes nothing once there is enough *)

Lemma refines_refl {S A} (m : M S A) : refines m m.
Proof. intros s r s' H _. exact H. Qed.

Lemma refines_bind {S A B} (m m' : M S A) (k k' : A -> M S B) :
  refines m m' → (∀ a, refines (k a) (k' a)) →
  refines (bind m k) (bind m' k').
Proof.
  intros Hm Hk s r s'. unfold bind.
  destruct (m s) as [[a|e|] s1] eqn:Hms; intros H Hr.
  - rewrite (Hm _ _ _ Hms) by discriminate. by apply Hk.
  - rewrite (Hm _ _ _ Hms) by discriminate. exact H.
  - inversion H; subst. by destruct Hr.
Qed.

Lemma refines_lift {A} (m m' : M world A) :
  refines m m' → refines (lift m) (lift m').
Proof.
  intros Hm s r s'. unfold lift.
  destruct (m (outer s)) as [r1 w1] eqn:Hms. intros [= <- <-] Hr.
  by rewrite (Hm _ _ _ Hms Hr).
Qed.

Lemma refines_call_nested k v (f f' : M cstate value) :
  refines f f' → refines (call_nested k v f) (call_nested k v f').
Proof.
  intros Hf s r s'. unfold call_nested.
  destruct v; try (intros H _; exact H).
  destruct (f _) as [r1 s1] eqn:Hfs. intros [= <- <-] Hr.
  by rewrite (Hf _ _ _ Hfs Hr).
Qed.

Lemma refines_call_fresh v (f f' : M cstate value) :
  refines f f' → refines (call_fresh v f) (call_fresh v f').
Proof.
  intros Hf w r w'. unfold call_fresh.
  destruct v; try (intros H _; exact H).
  destruct (f _) as [r1 s1] eqn:Hfs. intros [= <- <-] Hr.
  by rewrite (Hf _ _ _ Hfs Hr).
Qed.

Lemma refines_finally {S A} (m m' : M S A) (cleanup : M S unit) :
  refines m m' → refines (finally m cleanup) (finally m' cleanup).
Proof.
  intros Hm s r s'. unfold finally.
  destruct (m s) as [r1 s1] eqn:Hms. intros [= <- <-] Hr.
  by rewrite (Hm _ _ _ Hms Hr).
Qed.

Lemma _load_few_shot_prompt_refines
    (E : Env) (load_config load_config' : M cstate value)
    (load_path load_path' : value -> M world value) :
  refines load_config load_config' →
  (∀ p, refines (load_path p) (load_path' p)) →
  refines (_load_few_shot_prompt E load_config load_path)
          (_load_few_shot_prompt E load_config' load_path').
Proof.
  intros Hconfig Hpath. unfold _load_few_shot_prompt.
  apply refines_bind; [apply refines_refl|]. intros _.
  apply refines_bind; [apply refines_refl|]. intros _.
  apply refines_bind; [apply refines_refl|]. intros b.
  apply refines_bind; [|intros _; apply refines_refl].
  destruct b.
  - apply refines_bind; [apply refines_refl|]. intros b.
    destruct b; [apply refines_refl|].
    apply refines_bind; [apply refines_refl|]. intros p.
    apply refines_bind; [|intros v; apply refines_refl].
    apply refines_lift, Hpath.
  - apply refines_bind; [apply refines_refl|]. intros v.
    apply refines_bind; [|intros p; apply refines_refl].
    by apply refines_call_nested.
Qed.

Lemma _load_prompt_from_file_refines
    (E : Env) (load_config load_config' : M cstate value) (file : value) :
  refines load_config load_config' →
  refines (_load_prompt_from_file E load_config file)
          (_load_prompt_from_file E load_config' file).
Proof.
  intros Hconfig. unfold _load_prompt_from_file.
  destruct file; try apply refines_refl. cbn zeta.
  repeat match goal with
         | |- context [if ?b then _ else _] => destruct b
         end;
    try apply refines_refl.
  - apply refines_bind; [apply refines_refl|]. intros text.
    apply refines_bind; [apply refines_refl|]. intros cfg.
    by apply refines_call_fresh.
  - apply refines_bind; [apply refines_refl|]. intros text.
    apply refines_bind; [apply refines_refl|]. intros cfg.
    by apply refines_call_fresh.
Qed.

Lemma _load_from_hub_refines
    (E : Env) (load_config load_config' : M cstate value) (path : string) :
  refines load_config load_config' →
  refines (_load_from_hub E load_config path)
          (_load_from_hub E load_config' path).
Proof.
  intros Hconfig. unfold _load_from_hub. cbn zeta.
  destruct (negb _); [apply refines_refl|].
  apply refines_bind; [apply refines_refl|]. intros _.
  apply refines_bind; [apply refines_refl|]. intros r.
  destruct (negb _); [apply refines_refl|].
  apply refines_bind; [apply refines_refl|]. intros _.
  by apply refines_finally, _load_prompt_from_file_refines.
Qed.

Lemma one_more_unit (E : Env) (fuel : nat) :
  refines (load_prompt_from_config E fuel) (load_prompt_from_config E (S fuel))
  ∧ ∀ path, refines (load_prompt E fuel path) (load_prompt E (S fuel) path).
Proof.
  induction fuel as [|n [IHconfig IHpath]].
  { split; [intros s r s' [= <- <-] Hr | intros p w r w' [= <- <-] Hr];
      by destruct Hr. }
  split.
  - change (load_prompt_from_config E (S (S n)))
      with (bind (pop_default "_type" (VStr "prompt"))
              (fun prompt_type =>
                 if eq_str prompt_type "prompt" then _load_prompt E
                 else if eq_str prompt_type "few_shot" then
                   _load_few_shot_prompt E (load_prompt_from_config E (S n))
                     (load_prompt E (S n))
                 else raise (ValueError None))).
    change (load_prompt_from_config E (S n))
      with (bind (pop_default "_type" (VStr "prompt"))
              (fun prompt_type =>
                 if eq_str prompt_type "prompt" then _load_prompt E
                 else if eq_str prompt_type "few_shot" then
                   _load_few_shot_prompt E (load_prompt_from_config E n)
                     (load_prompt E n)
                 else raise (ValueError None))) at 1.
    apply refines_bind; [apply refines_refl|]. intros tag.
    destruct (eq_str tag "prompt"); [apply refines_refl|].
    destruct (eq_str tag "few_shot"); [|apply refines_refl].
    by apply _load_few_shot_prompt_refines.
  - intros path. cbn [load_prompt].
    destruct path; try (by apply _load_prompt_from_file_refines).
    destruct (Str.startswith _ _);
      [by apply _load_from_hub_refines | by apply _load_prompt_from_file_refines].
Qed.

(** A result reached with some fuel is the result with any larger fuel. *)
Lemma enough_fuel (E : Env) (fuel more : nat) (s s' : cstate) (r : res value) :
  load_prompt_from_config E fuel s = (r, s') → r ≠ OutOfFuel →
  load_prompt_from_config E (fuel + more) s = (r, s').
Proof.
  intros H Hr. induction more as [|k IH].
  - by rewrite Nat.add_0_r.
  - rewrite Nat.add_succ_r. by apply (proj1 (one_more_unit E (fuel + k))).
Qed.

(** ** The Field Materializer: [_load_template] *)




(** C9.  When [var_name_path] names a file whose suffix is not [.txt], the
    call raises, and by then the dictionary has lost [var_name_path] while
    [var_name] is still unset: the caller's dictionary is not what it was. *)
Theorem load_template_failure_not_atomic
    (var_name path : string) (cfg : dict) (w : world) :
  cfg !! (var_name ++ "_path") = Some (VStr path) →
  cfg !! var_name = None →
  Str.path_suffix path ≠ ".txt" →
  ∃ st', _load_template var_name {| config := cfg; outer := w |}
         = (Raise (ValueError None), st')
       ∧ config st' = delete (var_name ++ "_path") cfg
       ∧ config st' !! (var_name ++ "_path") = None
       ∧ config st' !! var_name = None
       ∧ config st' ≠ cfg.
Proof.
  intros Hp Hv Hsfx. rewrite _load_template_cases, Hp, Hv.
  apply String.eqb_neq in Hsfx. rewrite Hsfx.
  eexists; split; [reflexivity|]. cbn.
  split; [reflexivity|]. split; [apply lookup_delete_eq|].
  split.
  - rewrite lookup_delete_ne; [exact Hv | apply path_key_ne].
  - intros Heq. apply (f_equal (fun d : dict => d !! (var_name ++ "_path"))) in Heq.
    rewrite lookup_delete_eq, Hp in Heq. discriminate.
Qed.

Lemma load_template_failure_not_atomic_witness :
  ∃ st', _load_template "template" (Demo.on_disk markdown_reference)
         = (Raise (ValueError None), st')
       ∧ config st' = delete ("template" ++ "_path") markdown_reference
       ∧ config st' !! ("template" ++ "_path") = None
       ∧ config st' !! "template" = None
       ∧ config st' ≠ markdown_reference.
Proof.
  apply (load_template_failure_not_atomic "template" "joke.md");
    [reflexivity | reflexivity | vm_compute; discriminate].
Defined.

(** ** A field next to its [_path] twin *)

Lemma few_shot_suffix_conflict
    (E : Env) (load_config : M cstate value)
    (load_path : value -> M world value) (st : cstate) :
  both_present "suffix" (config st) →
  _load_few_shot_prompt E load_config load_path st
  = (Raise (ValueError (Some (both_provided "suffix"))), st).
Proof.
  intros H. unfold _load_few_shot_prompt. unfold bind at 1.
  now rewrite (_load_template_conflict "suffix" st H).
Qed.

Lemma few_shot_prefix_conflict
    (E : Env) (load_config : M cstate value)
    (load_path : value -> M world value) (st st1 : cstate) :
  _load_template "suffix" st = (Ok tt, st1) →
  both_present "prefix" (config st) →
  _load_few_shot_prompt E load_config load_path st
  = (Raise (ValueError (Some (both_provided "prefix"))), st1).
Proof.
  intros H1 H. unfold _load_few_shot_prompt. unfold bind at 1. rewrite H1.
  unfold bind at 1. rewrite (_load_template_conflict "prefix" st1); [reflexivity|].
  apply (both_present_untouched "prefix" st);
    [| | exact H]; eapply untouched_load_template; try exact H1; discriminate.
Qed.

Lemma few_shot_example_prompt_conflict
    (E : Env) (load_config : M cstate value)
    (load_path : value -> M world value) (st st1 st2 : cstate) :
  _load_template "suffix" st = (Ok tt, st1) →
  _load_template "prefix" st1 = (Ok tt, st2) →
  both_present "example_prompt" (config st) →
  _load_few_shot_prompt E load_config load_path st
  = (Raise (ValueError (Some only_one_example_prompt)), st2).
Proof.
  intros H1 H2 H. unfold _load_few_shot_prompt.
  unfold bind at 1. rewrite H1. unfold bind at 1. rewrite H2.
  assert (both_present "example_prompt" (config st2)) as [Hv Hp].
  { apply (both_present_untouched "example_prompt" st1).
    1,2: eapply untouched_load_template; try exact H2; discriminate.
    apply (both_present_untouched "example_prompt" st); [| | exact H];
      eapply untouched_load_template; try exact H1; discriminate. }
  apply has_key_true in Hv, Hp.
  change ("example_prompt" ++ "_path") with "example_prompt_path" in Hp.
  unfold bind, contains. rewrite Hp, Hv. reflexivity.
Qed.

(** C1 (amended).  Whenever the step that resolves a field runs on a
    dictionary holding both the field and its [_path] twin, that step
    raises and leaves the state as it was: every [_load_template] call, and
    the [example_prompt] step of the few-shot variant.  A [_load_template]
    call never creates such a pair, and after one that returns the twin is
    absent.  In the pipeline the conflict on a field is what is raised when
    no earlier step has raised: for [template] in the prompt variant and
    [suffix] in the few-shot variant always, for [prefix] when the suffix
    step returns, for [example_prompt] when both template steps return. *)
Theorem conflicting_twin_is_rejected (E : Env) :
  (∀ var_name st,
      both_present var_name (config st) →
      _load_template var_name st
      = (Raise (ValueError (Some (both_provided var_name))), st))
  ∧ (∀ var_name st r st',
      _load_template var_name st = (r, st') →
      (¬ both_present var_name (config st) →
       ¬ both_present var_name (config st'))
      ∧ (r = Ok tt → config st' !! (var_name ++ "_path") = None))
  ∧ (∀ fuel cfg w,
      cfg !! "_type" = None ∨ cfg !! "_type" = Some (VStr "prompt") →
      both_present "template" cfg →
      load_prompt_from_config E (S fuel) {| config := cfg; outer := w |}
      = (Raise (ValueError (Some (both_provided "template"))),
         {| config := delete "_type" cfg; outer := w |}))
  ∧ (∀ load_config load_path st,
      both_present "suffix" (config st) →
      _load_few_shot_prompt E load_config load_path st
      = (Raise (ValueError (Some (both_provided "suffix"))), st))
  ∧ (∀ load_config load_path st st1,
      _load_template "suffix" st = (Ok tt, st1) →
      both_present "prefix" (config st) →
      _load_few_shot_prompt E load_config load_path st
      = (Raise (ValueError (Some (both_provided "prefix"))), st1))
  ∧ (∀ load_config load_path st st1 st2,
      _load_template "suffix" st = (Ok tt, st1) →
      _load_template "prefix" st1 = (Ok tt, st2) →
      both_present "example_prompt" (config st) →
      _load_few_shot_prompt E load_config load_path st
      = (Raise (ValueError (Some only_one_example_prompt)), st2)).
Proof.
  split; [exact _load_template_conflict|].
  split; [intros var_name st r st'; apply _load_template_invariant|].
  split; [|split; [exact (few_shot_suffix_conflict E)|
                   split; [exact (few_shot_prefix_conflict E)|
                           exact (few_shot_example_prompt_conflict E)]]].
  intros fuel cfg w Htag [Hv Hp].
  rewrite load_prompt_from_config_prompt by exact Htag.
  unfold _load_prompt. unfold bind at 1.
  rewrite _load_template_conflict; [reflexivity|].
  split; cbn; rewrite lookup_delete_ne by discriminate; assumption.
Qed.

Lemma conflicting_twin_is_rejected_witness :
  _load_template "template" (Demo.on_disk inline_and_reference)
  = (Raise (ValueError (Some (both_provided "template"))),
     Demo.on_disk inline_and_reference)
  ∧ load_prompt_from_config Demo.env 1 (Demo.on_disk inline_and_reference)
    = (Raise (ValueError (Some (both_provided "template"))),
       {| config := delete "_type" inline_and_reference; outer := Demo.disk |})
  ∧ _load_few_shot_prompt Demo.env
      (load_prompt_from_config Demo.env 1) (load_prompt Demo.env 1)
      (Demo.on_disk few_shot_two_example_prompts)
    = (Raise (ValueError (Some only_one_example_prompt)),
       Demo.on_disk
         (<["suffix" := VStr "Tell me a {adjective} joke."]>
            (delete "suffix_path" few_shot_two_example_prompts))).
Proof.
  destruct (conflicting_twin_is_rejected Demo.env)
    as (Hstep & _ & Hprompt & _ & _ & Hexample).
  split; [|split].
  - apply Hstep. split; by eexists.
  - apply Hprompt; [left; reflexivity | split; by eexists].
  - eapply Hexample; [reflexivity | reflexivity | split; by eexists].
Defined.

(** C1 (counterexample to the unamended statement).  A few-shot
    configuration holds both [prefix] and [prefix_path] behind a
    [suffix_path] with a suffix other than [.txt]: what is raised is the
    bare [ValueError] of the suffix step, and the dictionary, already
    changed by that step, still holds both [prefix] and [prefix_path]. *)
Lemma conflicting_twin_is_rejected_counterexample :
  both_present "prefix" few_shot_two_prefixes
  ∧ load_prompt_from_config Demo.env 1 (Demo.on_disk few_shot_two_prefixes)
    = (Raise (ValueError None),
       Demo.on_disk (delete "suffix_path" (delete "_type" few_shot_two_prefixes)))
  ∧ ValueError None ≠ ValueError (Some (both_provided "prefix"))
  ∧ delete "suffix_path" (delete "_type" few_shot_two_prefixes)
    ≠ few_shot_two_prefixes
  ∧ both_present "prefix"
      (delete "suffix_path" (delete "_type" few_shot_two_prefixes)).
Proof.
  split; [split; by eexists|].
  split; [vm_compute; reflexivity|].
  split; [discriminate|].
  split; [|split; by eexists].
  intros H. apply (f_equal (fun d : dict => d !! "suffix_path")) in H.
  vm_compute in H. discriminate.
Qed.

(** ** The Examples Materializer: [_load_examples] *)

(** C7 (amended).  A list passes through; a string naming a file that can
    be opened is decoded by the ending of its name, and the decoded value
    replaces the field; when that file's name ends in none of [.json],
    [.yaml], [.yml] the call raises the invalid-file-format [ValueError];
    a value that is neither a list nor a string raises the
    invalid-examples-format [ValueError]. *)
Theorem load_examples_by_kind (E : Env) (cfg : dict) (w : world) :
  let st := {| config := cfg; outer := w |} in
  (∀ l, cfg !! "examples" = Some (VList l) →
        _load_examples E st = (Ok tt, st))
  ∧ (∀ path text examples,
        cfg !! "examples" = Some (VStr path) →
        files w !! path = Some text →
        (Str.endswith path ".json" = true ∧ json_load E text = inr examples)
        ∨ (Str.endswith path ".json" = false
           ∧ (Str.endswith path ".yaml" = true ∨ Str.endswith path ".yml" = true)
           ∧ yaml_safe_load E text = inr examples) →
        _load_examples E st
        = (Ok tt, {| config := <["examples" := examples]> cfg; outer := w |}))
  ∧ (∀ path text,
        cfg !! "examples" = Some (VStr path) →
        files w !! path = Some text →
        Str.endswith path ".json" = false →
        Str.endswith path ".yaml" = false →
        Str.endswith path ".yml" = false →
        _load_examples E st
        = (Raise (ValueError
                    (Some "Invalid file format. Only json or yaml formats are supported.")),
           st))
  ∧ (∀ v, cfg !! "examples" = Some v →
          (∀ l, v ≠ VList l) → (∀ s, v ≠ VStr s) →
          _load_examples E st
          = (Raise (ValueError
                      (Some "Invalid examples format. Only list or string are supported.")),
             st)).
Proof.
  cbn zeta. repeat split.
  - intros l H. rewrite _load_examples_cases. cbn zeta. now rewrite H.
  - intros path text examples H Hf Hd.
    rewrite _load_examples_cases. cbn zeta. rewrite H, Hf.
    unfold examples_decoder.
    destruct Hd as [[Hj Hd] | (Hj & Hy & Hd)]; rewrite Hj.
    + now rewrite Hd.
    + assert (Str.endswith path ".yaml" || Str.endswith path ".yml" = true)
        as -> by (destruct Hy as [-> | ->]; [reflexivity | apply orb_true_r]).
      now rewrite Hd.
  - intros path text H Hf Hj Hy Hm.
    rewrite _load_examples_cases. cbn zeta. rewrite H, Hf.
    unfold examples_decoder. now rewrite Hj, Hy, Hm.
  - intros v H Hl Hs. rewrite _load_examples_cases. cbn zeta. rewrite H.
    destruct v; try reflexivity; [now destruct (Hs s) | now destruct (Hl l)].
Qed.

Lemma load_examples_by_kind_witness :
  _load_examples Demo.env (Demo.on_disk inline_examples)
  = (Ok tt, Demo.on_disk inline_examples)
  ∧ _load_examples Demo.env (Demo.on_disk json_examples)
    = (Ok tt, Demo.on_disk (<["examples" := Demo.two_examples]> json_examples))
  ∧ _load_examples Demo.env (Demo.on_disk text_examples)
    = (Raise (ValueError
                (Some "Invalid file format. Only json or yaml formats are supported.")),
       Demo.on_disk text_examples)
  ∧ _load_examples Demo.env (Demo.on_disk numeric_examples)
    = (Raise (ValueError
                (Some "Invalid examples format. Only list or string are supported.")),
       Demo.on_disk numeric_examples).
Proof.
  split; [|split; [|split]].
  - eapply (proj1 (load_examples_by_kind Demo.env inline_examples Demo.disk)).
    reflexivity.
  - apply (proj1 (proj2 (load_examples_by_kind Demo.env json_examples Demo.disk))
             "examples.json" "examples" Demo.two_examples);
      [reflexivity | reflexivity | left; split; reflexivity].
  - apply (proj1 (proj2 (proj2
             (load_examples_by_kind Demo.env text_examples Demo.disk)))
             "joke.txt" "Tell me a {adjective} joke."); reflexivity.
  - apply (proj2 (proj2 (proj2
             (load_examples_by_kind Demo.env numeric_examples Demo.disk)))
             (VInt 3)); [reflexivity | discriminate | discriminate].
Defined.

(** C7 (counterexample to the unamended statement).  For a string that
    names no file and ends in none of the three endings, what is raised is
    the error of [open], because the file is opened before its name is
    looked at. *)
Lemma load_examples_by_kind_counterexample :
  missing_examples !! "examples" = Some (VStr "missing.csv")
  ∧ Str.endswith "missing.csv" ".json" = false
  ∧ Str.endswith "missing.csv" ".yaml" = false
  ∧ Str.endswith "missing.csv" ".yml" = false
  ∧ _load_examples Demo.env (Demo.on_disk missing_examples)
    = (Raise (OSError "missing.csv"), Demo.on_disk missing_examples)
  ∧ OSError "missing.csv"
    ≠ ValueError (Some "Invalid file format. Only json or yaml formats are supported.").
Proof.
  repeat split; try reflexivity. discriminate.
Qed.

(** ** The Output-Strategy Materializer: [_load_output_parser] *)

(** C6.  For a nested configuration tagged ["regex_parser"] the constructor
    is called with the nested dictionary as it stands, tag included, and
    not with the fields that remain once the tag is taken out. *)
Theorem output_parser_built_from_whole_config (E : Env) (w : world) :
  log (outer (snd (_load_output_parser E
                     {| config := prompt_with_parser; outer := w |})))
  = (log w ++ [ENew RegexParser regex_parser_config])%list
  ∧ regex_parser_config !! "_type" = Some (VStr "regex_parser")
  ∧ regex_parser_config ≠ delete "_type" regex_parser_config.
Proof.
  split; [|split].
  - rewrite _load_output_parser_cases. cbn zeta.
    change (prompt_with_parser !! "output_parser")
      with (Some (VDict regex_parser_config)).
    change (regex_parser_config !! "_type") with (Some (VStr "regex_parser")).
    cbn. destruct (construct E RegexParser regex_parser_config); reflexivity.
  - reflexivity.
  - intros H. apply (f_equal (fun d : dict => d !! "_type")) in H.
    rewrite lookup_delete_eq in H. discriminate.
Qed.

(** C10.  A nested [output_parser] dictionary without a ["_type"] key makes
    the call raise [KeyError], with the dictionary and the world untouched;
    the top-level resolver, given a dictionary without ["_type"], goes on as
    for ["prompt"]. *)
Theorem output_parser_tag_has_no_default
    (E : Env) (cfg _config : dict) (w : world) :
  cfg !! "output_parser" = Some (VDict _config) →
  _config !! "_type" = None →
  _load_output_parser E {| config := cfg; outer := w |}
  = (Raise (KeyError "_type"), {| config := cfg; outer := w |})
  ∧ (∀ tag, KeyError "_type"
            ≠ ValueError (Some (unsupported_output_parser E tag)))
  ∧ (∀ fuel (top : dict),
        top !! "_type" = None →
        load_prompt_from_config E (S fuel) {| config := top; outer := w |}
        = _load_prompt E {| config := top; outer := w |}).
Proof.
  intros Hop Hty. split; [|split].
  - rewrite _load_output_parser_cases. cbn zeta. rewrite Hop, Hty. reflexivity.
  - intros tag. discriminate.
  - intros fuel top Htop. cbn [load_prompt_from_config].
    unfold bind at 1, pop_default. cbn [config]. rewrite Htop. reflexivity.
Qed.

Lemma output_parser_tag_has_no_default_witness :
  _load_output_parser Demo.env (Demo.on_disk untagged_parser)
  = (Raise (KeyError "_type"), Demo.on_disk untagged_parser)
  ∧ (∀ tag, KeyError "_type"
            ≠ ValueError (Some (unsupported_output_parser Demo.env tag)))
  ∧ (∀ fuel (top : dict),
        top !! "_type" = None →
        load_prompt_from_config Demo.env (S fuel)
          {| config := top; outer := Demo.disk |}
        = _load_prompt Demo.env {| config := top; outer := Demo.disk |}).
Proof.
  apply (output_parser_tag_has_no_default
           Demo.env untagged_parser {[ "regex" := VStr "(.*)" ]} Demo.disk);
    reflexivity.
Defined.

(** C2.  Loading a ["prompt"] configuration with a ["regex_parser"] output
    parser: the first call to the outside is the [RegexParser] constructor
    on the nested dictionary with ["_type"] still in it, whatever the
    collaborators do; with constructors that accept, there are two calls,
    and only the top-level one has lost its tag. *)
Theorem nested_type_tag_reaches_constructor (E : Env) (fuel : nat) (w : world) :
  (∃ rest,
      log (outer (snd (load_prompt_from_config E (S fuel)
                         {| config := prompt_with_parser; outer := w |})))
      = (log w ++ ENew RegexParser regex_parser_config :: rest)%list)
  ∧ leaks_tag (ENew RegexParser regex_parser_config) = true
  ∧ log (outer (snd (load_prompt_from_config Demo.env (S fuel)
                       (Demo.on_disk prompt_with_parser))))
    = [ENew RegexParser regex_parser_config;
       ENew PromptTemplate
         (<["output_parser" := VObj RegexParser regex_parser_config]>
            (delete "_type" prompt_with_parser))]
  ∧ filter (fun e => leaks_tag e = true)
      (log (outer (snd (load_prompt_from_config Demo.env (S fuel)
                          (Demo.on_disk prompt_with_parser)))))
    = [ENew RegexParser regex_parser_config].
Proof.
  split; [|split; [reflexivity|]].
  - rewrite load_prompt_from_config_prompt by (right; reflexivity).
    unfold _load_prompt. unfold bind at 1.
    rewrite _load_template_no_path by reflexivity.
    unfold bind at 1.
    destruct (construct E RegexParser regex_parser_config) as [e|attrs] eqn:Hc.
    + rewrite (_load_output_parser_regex_refused E _ regex_parser_config e)
        by (reflexivity || exact Hc).
      exists []. reflexivity.
    + rewrite (_load_output_parser_regex E _ regex_parser_config attrs)
        by (reflexivity || exact Hc).
      unfold lift, new, bind, emit, of_sum, ret, raise; cbn.
      match goal with
      | |- context [construct E PromptTemplate ?d] =>
          destruct (construct E PromptTemplate d)
      end; cbn; rewrite <- app_assoc; eexists; reflexivity.
  - assert (log (outer (snd (load_prompt_from_config Demo.env (S fuel)
                               (Demo.on_disk prompt_with_parser))))
            = [ENew RegexParser regex_parser_config;
               ENew PromptTemplate
                 (<["output_parser" := VObj RegexParser regex_parser_config]>
                    (delete "_type" prompt_with_parser))]) as Hlog
      by (destruct fuel; vm_compute; reflexivity).
    split; [exact Hlog|]. rewrite Hlog. vm_compute. reflexivity.
Qed.

(** ** The Config Resolver: [load_prompt_from_config] *)



(** The two variants do return on well-formed input: a simple prompt with
    one unit of fuel, a few-shot prompt with an inline sub-template with
    two. *)
Example load_simple_prompt :
  load_prompt_from_config Demo.env 1 (Demo.on_disk Demo.simple_prompt)
  = (Ok (VObj PromptTemplate Demo.simple_prompt),
     {| config := Demo.simple_prompt;
        outer := logged (ENew PromptTemplate Demo.simple_prompt) Demo.disk |}).
Proof. vm_compute. reflexivity. Qed.

Example load_few_shot_prompt :
  fst (load_prompt_from_config Demo.env 2 (Demo.on_disk few_shot_inline))
  = Ok (VObj FewShotPromptTemplate few_shot_resolved)
  ∧ few_shot_resolved !! "examples" = Some Demo.two_examples
  ∧ (∃ sub, few_shot_resolved !! "example_prompt" = Some (VObj PromptTemplate sub)
          ∧ sub !! "template" = Some (VStr "Q: {q} A: {a}")).
Proof.
  split; [vm_compute; reflexivity|]. split; [reflexivity|].
  eexists. split; reflexivity.
Qed.

(** ** The Format Reader: [_load_prompt_from_file] *)

(** One configuration stored once as JSON and once as YAML loads to the
    same result. *)
Lemma config_file_formats_agree
    (E : Env) (load_config : M cstate value)
    (json_path yaml_path json_text yaml_text : string) (cfg : value) (w : world) :
  Str.path_suffix json_path = ".json" →
  Str.path_suffix yaml_path = ".yaml" →
  files w !! json_path = Some json_text →
  files w !! yaml_path = Some yaml_text →
  json_load E json_text = inr cfg →
  yaml_safe_load E yaml_text = inr cfg →
  _load_prompt_from_file E load_config (VStr json_path) w
  = _load_prompt_from_file E load_config (VStr yaml_path) w.
Proof.
  intros Hj Hy Hfj Hfy Hdj Hdy.
  rewrite (_load_prompt_from_file_decoded E load_config json_path json_text
             (json_load E) cfg w) by auto.
  rewrite (_load_prompt_from_file_decoded E load_config yaml_path yaml_text
             (yaml_safe_load E) cfg w) by auto.
  reflexivity.
Qed.

(** A suffix other than [.json], [.yaml] and [.py] raises the [ValueError]
    that prints the suffix, before the file is opened. *)
Lemma unsupported_file_type_is_named
    (E : Env) (load_config : M cstate value) (file_path : string) (w : world) :
  Str.path_suffix file_path ≠ ".json" →
  Str.path_suffix file_path ≠ ".yaml" →
  Str.path_suffix file_path ≠ ".py" →
  _load_prompt_from_file E load_config (VStr file_path) w
  = (Raise (ValueError
              (Some ("Got unsupported file type " ++ Str.path_suffix file_path))),
     w).
Proof.
  intros Hj Hy Hp. unfold _load_prompt_from_file. cbn zeta.
  apply String.eqb_neq in Hj, Hy, Hp. rewrite Hj, Hy, Hp. reflexivity.
Qed.

(** C3.  A configuration file named [simple.yml] is refused as an
    unsupported file type, although the same text under [simple.yaml]
    loads, and although the examples reader decodes a [.yml] file. *)
Theorem yml_configuration_file_is_rejected (fuel : nat) :
  files Demo.disk !! "simple.yml" = files Demo.disk !! "simple.yaml"
  ∧ fst (_load_prompt_from_file Demo.env
           (load_prompt_from_config Demo.env (S fuel)) (VStr "simple.yaml")
           Demo.disk)
    = Ok (VObj PromptTemplate Demo.simple_prompt)
  ∧ _load_prompt_from_file Demo.env
      (load_prompt_from_config Demo.env (S fuel)) (VStr "simple.yml") Demo.disk
    = (Raise (ValueError (Some "Got unsupported file type .yml")), Demo.disk)
  ∧ _load_examples Demo.env (Demo.on_disk yml_examples)
    = (Ok tt, Demo.on_disk (<["examples" := Demo.two_examples]> yml_examples)).
Proof.
  split; [reflexivity|]. split; [destruct fuel; vm_compute; reflexivity|].
  split; [|vm_compute; reflexivity].
  apply unsupported_file_type_is_named; vm_compute; discriminate.
Qed.

(** ** The Remote Resolver: [_load_from_hub] *)

(** C8.  For a path whose last dot-separated segment is [py], [json] or
    [yaml], the resolver's next call to the outside is [requests.get] on
    [URL_BASE] followed by the path, and a response whose status is not 200
    raises the [ValueError] that prints that URL, nothing else having been
    done; for any other path it raises before any call is made. *)
Theorem hub_fetches_constructed_url
    (E : Env) (fuel : nat) (path : string) (w : world) :
  let full_url := URL_BASE ++ path in
  let run := _load_from_hub E (load_prompt_from_config E fuel) path w in
  (Str.last_dot_segment path ∈ hub_suffixes →
   (∃ rest, log (snd run) = (log w ++ EGet full_url :: rest)%list)
   ∧ (∀ r, requests_get E full_url = inr r →
           status_code r ≠ 200%Z →
           run = (Raise (ValueError (Some ("Could not find file at " ++ full_url))),
                  {| files := files w; log := (log w ++ [EGet full_url])%list |})))
  ∧ (Str.last_dot_segment path ∉ hub_suffixes →
     run = (Raise (ValueError (Some "Unsupported file type.")), w)).
Proof.
  cbn zeta. rewrite _load_from_hub_cases. cbn zeta. split.
  - intros Hin. rewrite bool_decide_true by exact Hin. split.
    + destruct (requests_get E _) as [e|r]; [exists []; reflexivity|].
      destruct (status_code r =? 200)%Z; [|exists []; reflexivity].
      unfold finally.
      destruct (_load_prompt_from_file _ _ _ _) as [rf wf] eqn:Hfile.
      apply _load_prompt_from_file_emits in Hfile as (l & Hl & _);
        [|apply (loader_emits E fuel)].
      exists l. cbn in *. rewrite Hl. by rewrite <- app_assoc.
    + intros r Hr Hstatus. rewrite Hr.
      apply Z.eqb_neq in Hstatus. rewrite Hstatus. reflexivity.
  - intros Hout. rewrite bool_decide_false by exact Hout. reflexivity.
Qed.

Lemma hub_fetches_constructed_url_witness :
  ((∃ rest,
       log (snd (_load_from_hub Demo.env (load_prompt_from_config Demo.env 1)
                   "qa/missing.yaml" Demo.disk))
       = (log Demo.disk ++ EGet (URL_BASE ++ "qa/missing.yaml") :: rest)%list)
   ∧ _load_from_hub Demo.env (load_prompt_from_config Demo.env 1)
       "qa/missing.yaml" Demo.disk
     = (Raise (ValueError
                 (Some ("Could not find file at "
                        ++ (URL_BASE ++ "qa/missing.yaml")))),
        {| files := files Demo.disk;
           log := (log Demo.disk ++ [EGet (URL_BASE ++ "qa/missing.yaml")])%list |}))
  ∧ _load_from_hub Demo.env (load_prompt_from_config Demo.env 1)
      "qa/prompt.txt" Demo.disk
    = (Raise (ValueError (Some "Unsupported file type.")), Demo.disk).
Proof.
  split.
  - destruct (proj1 (hub_fetches_constructed_url Demo.env 1 "qa/missing.yaml"
                       Demo.disk)) as [Hget Hstatus].
    + vm_compute. repeat constructor.
    + split; [exact Hget|].
      apply (Hstatus {| status_code := 404; content := "" |});
        [reflexivity | discriminate].
  - apply (proj2 (hub_fetches_constructed_url Demo.env 1 "qa/prompt.txt" Demo.disk)).
    vm_compute. intros H.
    repeat (apply elem_of_cons in H as [H|H]; [discriminate H|]).
    by apply elem_of_nil in H.
Defined.

Example load_from_hub_found :
  _load_from_hub Demo.online (load_prompt_from_config Demo.online 1)
    "qa/simple.json" Demo.disk
  = (Ok (VObj PromptTemplate Demo.simple_prompt),
     {| files := files Demo.disk;
        log := [EGet (URL_BASE ++ "qa/simple.json");
                ENew PromptTemplate Demo.simple_prompt] |}).
Proof. vm_compute. reflexivity. Qed.

(** ** The caller's dictionary after a load *)


(** X2.  A load consumes the type tag of the dictionary it is given: when
    it is over, with a result or with an error, the dictionary has no
    ["_type"], so a second load of the same dictionary runs the
    single-template variant, whatever the tag was. *)
Theorem type_tag_is_consumed (E : Env) (fuel again : nat) (s : cstate) :
  let after := snd (load_prompt_from_config E (S fuel) s) in
  config after !! "_type" = None
  ∧ load_prompt_from_config E (S again) after = _load_prompt E after.
Proof.
  cbn zeta.
  assert (config (snd (load_prompt_from_config E (S fuel) s)) !! "_type" = None)
    as Hgone.
  { destruct s as [cfg w]. rewrite load_prompt_from_config_pop. cbn zeta.
    assert (delete "_type" cfg !! "_type" = None) as Hpopped
      by apply lookup_delete_eq.
    destruct (cfg !! "_type") as [tag|].
    - destruct (eq_str tag "prompt").
      { destruct (_load_prompt E _) as [r s'] eqn:Hrun.
        apply _load_prompt_keeps_tag in Hrun. cbn. by rewrite Hrun. }
      destruct (eq_str tag "few_shot"); [|exact Hpopped].
      destruct (_load_few_shot_prompt E _ _ _) as [r s'] eqn:Hrun.
      apply _load_few_shot_prompt_keeps_tag in Hrun. cbn. by rewrite Hrun.
    - destruct (_load_prompt E _) as [r s'] eqn:Hrun.
      apply _load_prompt_keeps_tag in Hrun. cbn. by rewrite Hrun. }
  split; [exact Hgone|].
  destruct (snd (load_prompt_from_config E (S fuel) s)) as [cfg' w'].
  cbn in Hgone. rewrite load_prompt_from_config_prompt by (left; exact Hgone).
  by rewrite delete_id.
Qed.

(** ** The file system around a load *)























(** ** Splitting strings *)

Lemma split_nonempty (c : ascii) (s : string) : Str.split c s ≠ [].
Proof.
  destruct s as [|a s]; cbn; [discriminate|].
  destruct (Str.split c s); [discriminate|].
  destruct (Ascii.eqb a c); discriminate.
Qed.

(** [(a + c + b).split(c) == a.split(c) + b.split(c)] *)
Lemma split_app (c : ascii) (a b : string) :
  Str.split c (a ++ String c b) = (Str.split c a ++ Str.split c b)%list.
Proof.
  induction a as [|x a IH].
  - change ("" ++ String c b) with (String c b). cbn.
    pose proof (split_nonempty c b) as Hb.
    destruct (Str.split c b) as [|hd tl]; [done|]. by rewrite Ascii.eqb_refl.
  - change (String x a ++ String c b) with (String x (a ++ String c b)).
    cbn. rewrite IH. pose proof (split_nonempty c a) as Ha.
    destruct (Str.split c a) as [|hd tl]; [done|]. cbn.
    destruct (Ascii.eqb x c); reflexivity.
Qed.

Lemma last_app_nonempty {A} (l1 l2 : list A) (d : A) :
  l2 ≠ [] → List.last (l1 ++ l2) d = List.last l2 d.
Proof.
  intros Hne. induction l1 as [|x l1 IH]; [reflexivity|].
  cbn [app]. destruct (l1 ++ l2)%list eqn:Happ.
  - apply app_eq_nil in Happ as [_ ->]. done.
  - cbn [List.last]. exact IH.
Qed.

(** Only the last component of a path decides its suffix. *)
Lemma path_suffix_last_component (dir name : string) :
  Str.split "/" name = [name] → name ≠ "" → name ≠ "." →
  Str.path_suffix (dir ++ String "/" name) = Str.path_suffix name.
Proof.
  intros Hsplit Hne Hdot.
  assert (∀ p, Str.path_name p = name →
               Str.path_suffix p = Str.path_suffix name) as Hname.
  { intros p Hp. unfold Str.path_suffix. rewrite Hp.
    assert (Str.path_name name = name) as ->; [|reflexivity].
    unfold Str.path_name. rewrite Hsplit. cbn.
    apply String.eqb_neq in Hne, Hdot. by rewrite Hne, Hdot. }
  apply Hname. unfold Str.path_name. rewrite split_app, Hsplit.
  rewrite List.filter_app. cbn [List.filter].
  apply String.eqb_neq in Hne, Hdot. rewrite Hne, Hdot. cbn.
  by rewrite last_app_nonempty.
Qed.

Lemma tmp_file_suffix (E : Env) (suffix : string) :
  suffix ∈ hub_suffixes →
  Str.path_suffix (tmp_file E suffix) = "." ++ suffix.
Proof.
  intros Hin. unfold tmp_file.
  repeat (apply elem_of_cons in Hin as [-> | Hin];
          [match goal with
           | |- context [tmpdirname E ++ ?s] =>
               let s' := eval vm_compute in s in
               change s with s'
           end;
           rewrite path_suffix_last_component by (vm_compute; congruence);
           vm_compute; reflexivity|]).
  by apply elem_of_nil in Hin.
Qed.

(** ** A hub load that finds its file *)

(** X5.  When the request succeeds, a hub load for a [json] or [yaml] path
    is the resolution of the decoded response, run while the temporary
    file exists and followed by its removal: the name of the temporary file
    is recognized by the file reader whatever the temporary directory. *)
Theorem hub_load_resolves_fetched_text
    (E : Env) (load_config : M cstate value) (path : string) (w : world)
    (r : response) (cfg : value) :
  requests_get E (URL_BASE ++ path) = inr r →
  status_code r = 200%Z →
  (Str.last_dot_segment path = "json" ∧ json_load E (content r) = inr cfg)
  ∨ (Str.last_dot_segment path = "yaml"
     ∧ yaml_safe_load E (content r) = inr cfg) →
  let file := tmp_file E (Str.last_dot_segment path) in
  _load_from_hub E load_config path w
  = finally (call_fresh cfg load_config) (remove_file file)
      {| files := <[file := content r]> (files w);
         log := (log w ++ [EGet (URL_BASE ++ path)])%list |}.
Proof.
  intros Hget Hstatus Hdec. cbn zeta.
  rewrite _load_from_hub_cases. cbn zeta.
  assert (Str.last_dot_segment path ∈ hub_suffixes) as Hin.
  { destruct Hdec as [[-> _] | [-> _]]; vm_compute; repeat constructor. }
  rewrite bool_decide_true by exact Hin. rewrite Hget, Hstatus.
  rewrite Z.eqb_refl. cbv beta iota zeta.
  fold (tmp_file E (Str.last_dot_segment path)).
  unfold finally, logged. cbn [log files].
  rewrite (_load_prompt_from_file_decoded E load_config _ (content r)
             (if String.eqb (Str.last_dot_segment path) "json"
              then json_load E else yaml_safe_load E) cfg); [reflexivity|..].
  - rewrite tmp_file_suffix by exact Hin.
    destruct Hdec as [[-> _] | [-> _]]; [left | right]; split; reflexivity.
  - cbn. apply lookup_insert_eq.
  - destruct Hdec as [[-> Hd] | [-> Hd]]; exact Hd.
Qed.

Lemma hub_load_resolves_fetched_text_witness :
  _load_from_hub Demo.online (load_prompt_from_config Demo.online 1)
    "qa/simple.json" Demo.disk
  = finally (call_fresh (VDict Demo.simple_prompt)
               (load_prompt_from_config Demo.online 1))
      (remove_file (tmp_file Demo.online (Str.last_dot_segment "qa/simple.json")))
      {| files := <[tmp_file Demo.online (Str.last_dot_segment "qa/simple.json")
                    := "simple"]> (files Demo.disk);
         log := (log Demo.disk ++ [EGet (URL_BASE ++ "qa/simple.json")])%list |}.
Proof.
  apply (hub_load_resolves_fetched_text Demo.online _ "qa/simple.json" Demo.disk
           {| status_code := 200; content := "simple" |});
    [reflexivity | reflexivity | left; split; reflexivity].
Defined.

(** ** Python sources *)



(** The three ways out of the [.py] branch, on the sample sources. *)
Example python_sources :
  fst (load_prompt Scripted.env 1 (VStr "good.py") Scripted.disk)
  = Ok Scripted.prompt_object
  ∧ fst (load_prompt Scripted.env 1 (VStr "number.py") Scripted.disk)
    = Raise (ValueError (Some "Did not get object of type BasePromptTemplate."))
  ∧ fst (load_prompt Scripted.env 1 (VStr "empty.py") Scripted.disk)
    = Raise AttributeError.
Proof. repeat split; vm_compute; reflexivity. Qed.

(** ** A template read from a text file, end to end *)



(** ** Steps that fail without changing the dictionary *)

(** X8.  When [_load_examples] raises, the dictionary and the world are as
    they were; when [_load_output_parser] raises, the dictionary and the
    files are as they were.  (A failing [_load_template] is different: it
    has popped the [_path] key by then.) *)
Theorem failed_examples_and_parser_keep_dictionary (E : Env) (s : cstate) :
  (∀ e s', _load_examples E s = (Raise e, s') → s' = s)
  ∧ (∀ e s', _load_output_parser E s = (Raise e, s') →
             config s' = config s ∧ files (outer s') = files (outer s)).
Proof.
  destruct s as [cfg w]. split.
  - intros e s'. rewrite _load_examples_cases. cbn zeta. intros H.
    split_matches H; inversion H; reflexivity.
  - intros e s'. rewrite _load_output_parser_cases. cbn zeta. intros H.
    split_matches H; inversion H; split; reflexivity.
Qed.

Lemma failed_examples_and_parser_keep_dictionary_witness :
  snd (_load_examples Demo.env (Demo.on_disk text_examples))
  = Demo.on_disk text_examples
  ∧ config (snd (_load_output_parser Demo.env (Demo.on_disk untagged_parser)))
    = untagged_parser.
Proof.
  destruct (failed_examples_and_parser_keep_dictionary
              Demo.env (Demo.on_disk text_examples)) as [Hexamples _].
  destruct (failed_examples_and_parser_keep_dictionary
              Demo.env (Demo.on_disk untagged_parser)) as [_ Hparser].
  split.
  - apply (Hexamples (ValueError (Some invalid_file_format))). reflexivity.
  - apply (Hparser (KeyError "_type")). reflexivity.
Defined.

(** ** A resolved dictionary is not a configuration any more *)

(** X16.  Once [_load_output_parser] has put the parser object in place of
    the nested dictionary, a second call on the same dictionary raises
    [TypeError]: the object cannot be indexed by ["_type"]. *)
Theorem output_parser_resolves_once
    (E : Env) (cfg _config attrs : dict) (w : world) :
  cfg !! "output_parser" = Some (VDict _config) →
  _config !! "_type" = Some (VStr "regex_parser") →
  construct E RegexParser _config = inr attrs →
  ∃ s', _load_output_parser E {| config := cfg; outer := w |} = (Ok tt, s')
      ∧ config s' !! "output_parser" = Some (VObj RegexParser attrs)
      ∧ _load_output_parser E s' = (Raise TypeError, s').
Proof.
  intros Hop Hty Hc. eexists. split; [by apply _load_output_parser_regex|].
  split; [apply lookup_insert_eq|].
  rewrite _load_output_parser_cases. cbn zeta.
  by rewrite lookup_insert_eq.
Qed.

Lemma output_parser_resolves_once_witness :
  ∃ s', _load_output_parser Demo.env (Demo.on_disk prompt_with_parser) = (Ok tt, s')
      ∧ config s' !! "output_parser" = Some (VObj RegexParser regex_parser_config)
      ∧ _load_output_parser Demo.env s' = (Raise TypeError, s').
Proof.
  apply (output_parser_resolves_once Demo.env prompt_with_parser
           regex_parser_config regex_parser_config Demo.disk); reflexivity.
Defined.

(** ** The fields a few-shot configuration must have *)

(** X13.  Once the suffix and prefix steps have returned, a few-shot
    configuration with neither [example_prompt] nor [example_prompt_path]
    raises [KeyError] for ["example_prompt"]; one whose inline sub-template
    resolves but that has no [examples] raises [KeyError] for
    ["examples"], after the sub-template has been built and stored. *)
Theorem few_shot_required_fields
    (E : Env) (load_config : M cstate value)
    (load_path : value -> M world value) (s s1 s2 : cstate) :
  _load_template "suffix" s = (Ok tt, s1) →
  _load_template "prefix" s1 = (Ok tt, s2) →
  config s !! "example_prompt_path" = None →
  (config s !! "example_prompt" = None →
   _load_few_shot_prompt E load_config load_path s
   = (Raise (KeyError "example_prompt"), s2))
  ∧ (∀ sub prompt s3,
        config s !! "example_prompt" = Some (VDict sub) →
        load_config {| config := sub; outer := outer s2 |} = (Ok prompt, s3) →
        config s !! "examples" = None →
        _load_few_shot_prompt E load_config load_path s
        = (Raise (KeyError "examples"),
           {| config := <["example_prompt" := prompt]> (config s2);
              outer := outer s3 |})).
Proof.
  intros H1 H2 Hpath.
  assert (∀ k, k ∉ ["suffix"; "suffix_path"; "prefix"; "prefix_path"] →
               config s2 !! k = config s !! k) as Hkeep.
  { intros k Hk.
    transitivity (config s1 !! k).
    - eapply untouched_load_template; [| |exact H2];
        intros ->; apply Hk; set_solver.
    - eapply untouched_load_template; [| |exact H1];
        intros ->; apply Hk; set_solver. }
  pose proof (Hkeep "example_prompt_path" ltac:(not_a_key)) as Hkpath.
  pose proof (Hkeep "example_prompt" ltac:(not_a_key)) as Hkinline.
  pose proof (Hkeep "examples" ltac:(not_a_key)) as Hkexamples.
  split.
  - intros Hinline. unfold _load_few_shot_prompt.
    unfold bind at 1. rewrite H1. unfold bind at 1. rewrite H2.
    unfold bind at 1, contains, has_key. rewrite Hkpath, Hpath.
    unfold bind at 1. unfold bind at 1, getitem.
    by rewrite Hkinline, Hinline.
  - intros sub prompt s3 Hinline Hsub Hexamples. unfold _load_few_shot_prompt.
    unfold bind at 1. rewrite H1. unfold bind at 1. rewrite H2.
    unfold bind at 1, contains, has_key. rewrite Hkpath, Hpath.
    unfold bind at 1. unfold bind at 1, getitem.
    rewrite Hkinline, Hinline.
    unfold bind at 1, call_nested. rewrite Hsub.
    unfold setitem. cbn [config outer].
    unfold bind at 1. rewrite _load_examples_cases. cbn zeta.
    rewrite lookup_insert_ne by discriminate.
    rewrite lookup_insert_ne by discriminate.
    rewrite Hkexamples, Hexamples.
    by rewrite insert_insert_eq.
Qed.

Lemma few_shot_required_fields_witness :
  _load_few_shot_prompt Demo.env
    (load_prompt_from_config Demo.env 1) (load_prompt Demo.env 1)
    (Demo.on_disk few_shot_without_example_prompt)
  = (Raise (KeyError "example_prompt"),
     Demo.on_disk few_shot_without_example_prompt)
  ∧ _load_few_shot_prompt Demo.env
      (load_prompt_from_config Demo.env 1) (load_prompt Demo.env 1)
      (Demo.on_disk few_shot_without_examples)
    = (Raise (KeyError "examples"),
       {| config := <["example_prompt" :=
                        VObj PromptTemplate (delete "_type" example_prompt_config)]>
                      few_shot_without_examples;
          outer := logged
                     (ENew PromptTemplate (delete "_type" example_prompt_config))
                     Demo.disk |}).
Proof.
  split.
  - eapply (proj1 (few_shot_required_fields Demo.env _ _
                     (Demo.on_disk few_shot_without_example_prompt) _ _
                     eq_refl eq_refl eq_refl)).
    reflexivity.
  - apply (proj2 (few_shot_required_fields Demo.env _ _
                    (Demo.on_disk few_shot_without_examples) _ _
                    eq_refl eq_refl eq_refl)
             example_prompt_config
             (VObj PromptTemplate (delete "_type" example_prompt_config))
             {| config := delete "_type" example_prompt_config;
                outer := logged
                           (ENew PromptTemplate
                              (delete "_type" example_prompt_config))
                           Demo.disk |}); reflexivity.
Defined.

(** ** How calls of [_load_template] compose *)

Lemma string_app_inv_tail (a b c : string) : a ++ c = b ++ c → a = b.
Proof.
  revert b. induction a as [|x a IH]; intros [|y b] H.
  - reflexivity.
  - apply (f_equal String.length) in H.
    change (String y b ++ c) with (String y (b ++ c)) in H.
    change ("" ++ c) with c in H. cbn in H. rewrite string_length_app in H. lia.
  - apply (f_equal String.length) in H.
    change (String x a ++ c) with (String x (a ++ c)) in H.
    change ("" ++ c) with c in H. cbn in H. rewrite string_length_app in H. lia.
  - change (String x a ++ c) with (String x (a ++ c)) in H.
    change (String y b ++ c) with (String y (b ++ c)) in H.
    injection H as -> H. f_equal. by apply IH.
Qed.

(** X9.  A call of [_load_template] that has returned need not be made
    again: a second call for the same field returns at once and changes
    nothing. *)
Theorem load_template_twice (var_name : string) (s s' : cstate) :
  _load_template var_name s = (Ok tt, s') →
  _load_template var_name s' = (Ok tt, s').
Proof.
  intros H. apply _load_template_no_path.
  by apply (_load_template_invariant var_name s s' (Ok tt) H).
Qed.

Lemma load_template_twice_witness :
  _load_template "template"
    (Demo.on_disk (<["template" := VStr "Tell me a {adjective} joke."]>
                     (delete "template_path" text_reference)))
  = (Ok tt,
     Demo.on_disk (<["template" := VStr "Tell me a {adjective} joke."]>
                     (delete "template_path" text_reference))).
Proof.
  apply (load_template_twice "template" (Demo.on_disk text_reference)).
  reflexivity.
Defined.

(** X10.  Calls for two different fields, neither of which is the [_path]
    twin of the other, can be made in either order: when both return in
    one order they both return in the other, with the same final state. *)
Theorem load_template_order (u v : string) (s s1 s2 : cstate) :
  u ≠ v → u ≠ v ++ "_path" → v ≠ u ++ "_path" →
  _load_template u s = (Ok tt, s1) →
  _load_template v s1 = (Ok tt, s2) →
  ∃ s1', _load_template v s = (Ok tt, s1')
       ∧ _load_template u s1' = (Ok tt, s2).
Proof.
  intros Huv Huvp Hvup H1 H2.
  assert (u ++ "_path" ≠ v ++ "_path") as Hpp
    by (intros H; by apply string_app_inv_tail in H).
  pose proof (path_key_ne u) as Hu. pose proof (path_key_ne v) as Hv.
  destruct s as [cfg w].
  rewrite _load_template_cases in H1.
  destruct (cfg !! (u ++ "_path")) as [p|] eqn:Hup.
  - destruct (cfg !! u) eqn:Hucfg; [discriminate|]. cbn zeta in H1.
    destruct p as [| | |p| | |]; try discriminate.
    destruct (String.eqb (Str.path_suffix p) ".txt") eqn:Hsfx; [|discriminate].
    destruct (files w !! p) as [t|] eqn:Hfile; [|discriminate].
    injection H1 as <-.
    rewrite _load_template_cases in H2.
    rewrite !lookup_insert_ne, !lookup_delete_ne in H2 by congruence.
    destruct (cfg !! (v ++ "_path")) as [q|] eqn:Hvp.
    + destruct (cfg !! v) eqn:Hvcfg; [discriminate|]. cbn zeta in H2.
      destruct q as [| | |q| | |]; try discriminate.
      destruct (String.eqb (Str.path_suffix q) ".txt") eqn:Hsfx2; [|discriminate].
      destruct (files w !! q) as [t2|] eqn:Hfile2; [|discriminate].
      injection H2 as <-.
      eexists. split.
      * rewrite _load_template_cases, Hvp, Hvcfg. cbn zeta.
        rewrite Hsfx2, Hfile2. reflexivity.
      * rewrite _load_template_cases.
        rewrite !lookup_insert_ne, !lookup_delete_ne by congruence.
        rewrite Hup, Hucfg. cbn zeta. rewrite Hsfx, Hfile.
        f_equal. f_equal. apply map_eq. intros k.
        rewrite !lookup_insert, !lookup_delete, !lookup_insert, !lookup_delete.
        repeat case_decide; congruence.
    + injection H2 as <-. eexists. split.
      * apply (_load_template_no_path v {| config := cfg; outer := w |}).
        exact Hvp.
      * rewrite _load_template_cases, Hup, Hucfg. cbn zeta.
        rewrite Hsfx, Hfile. reflexivity.
  - injection H1 as <-. exists s2. split; [exact H2|].
    apply _load_template_no_path.
    assert (untouched (u ++ "_path") {| config := cfg; outer := w |} s2) as Hk
      by (eapply untouched_load_template; [| |exact H2]; congruence).
    unfold untouched in Hk. cbn [config] in Hk. by rewrite Hk.
Qed.

Lemma load_template_order_witness :
  ∃ s1', _load_template "prefix" (Demo.on_disk few_shot_two_example_prompts)
         = (Ok tt, s1')
       ∧ _load_template "suffix" s1'
         = (Ok tt,
            Demo.on_disk (<["suffix" := VStr "Tell me a {adjective} joke."]>
                            (delete "suffix_path" few_shot_two_example_prompts))).
Proof.
  apply (load_template_order "suffix" "prefix"
           (Demo.on_disk few_shot_two_example_prompts)
           (Demo.on_disk (<["suffix" := VStr "Tell me a {adjective} joke."]>
                            (delete "suffix_path" few_shot_two_example_prompts))));
    [discriminate | discriminate | discriminate | reflexivity | reflexivity].
Defined.

(** ** A file that names itself *)

(** X11.  There is no bound on the nesting: a few-shot configuration file
    whose [example_prompt_path] is the file itself is read again and again,
    and the load does not return, whatever the fuel. *)
Theorem self_reference_never_returns
    (E : Env) (fuel : nat) (path text : string) (cfg : dict) (w : world) :
  Str.startswith path "lc://prompts" = false →
  Str.path_suffix path = ".json" →
  files w !! path = Some text →
  json_load E text = inr (VDict cfg) →
  cfg !! "_type" = Some (VStr "few_shot") →
  cfg !! "suffix_path" = None →
  cfg !! "prefix_path" = None →
  cfg !! "example_prompt" = None →
  cfg !! "example_prompt_path" = Some (VStr path) →
  load_prompt E fuel (VStr path) w = (OutOfFuel, w).
Proof.
  intros Hlocal Hsfx Hfile Hdec Htag Hsuffix Hprefix Hinline Hself.
  assert (load_prompt E fuel (VStr path) w = (OutOfFuel, w)
          ∧ ∃ d, load_prompt_from_config E fuel {| config := cfg; outer := w |}
                 = (OutOfFuel, {| config := d; outer := w |})) as [H _];
    [|exact H].
  induction fuel as [|n [IHpath [d IHconfig]]].
  { split; [reflexivity | by exists cfg]. }
  split.
  - cbn [load_prompt]. rewrite Hlocal.
    rewrite (_load_prompt_from_file_decoded E _ path text (json_load E)
               (VDict cfg)) by auto.
    unfold call_fresh. by rewrite IHconfig.
  - rewrite load_prompt_from_config_pop. cbn zeta. rewrite Htag.
    cbn [eq_str String.eqb Ascii.eqb Bool.eqb].
    unfold _load_few_shot_prompt.
    unfold bind at 1. rewrite _load_template_no_path
      by (cbn; by rewrite lookup_delete_ne).
    unfold bind at 1. rewrite _load_template_no_path
      by (cbn; by rewrite lookup_delete_ne).
    unfold bind at 1, contains, has_key. cbn [config].
    rewrite lookup_delete_ne, Hself by discriminate.
    unfold bind at 1. unfold bind at 1. cbn [config].
    rewrite lookup_delete_ne, Hinline by discriminate.
    unfold bind at 1, pop. cbn [config outer].
    rewrite lookup_delete_ne, Hself by discriminate.
    unfold bind at 1, lift. cbn [config outer]. rewrite IHpath.
    eexists. reflexivity.
Qed.

Lemma self_reference_never_returns_witness :
  load_prompt Scripted.env 7 (VStr "loop.json") Scripted.disk
  = (OutOfFuel, Scripted.disk).
Proof.
  apply (self_reference_never_returns Scripted.env 7 "loop.json" "loop"
           Scripted.self_reference Scripted.disk); reflexivity.
Defined.

(** ** The paths the hub accepts *)

(** The last segment of a split: the string itself when the separator does
    not occur, what follows the last separator otherwise. *)
Lemma split_last_cases (c : ascii) (s : string) :
  Str.split c s = [s]
  ∨ ∃ stem, s = stem ++ String c (List.last (Str.split c s) "")
          ∧ ∃ x y l, Str.split c s = x :: y :: l.
Proof.
  induction s as [|a s IH]; [by left|].
  cbn [Str.split]. destruct IH as [-> | (stem & Hs & x & y & l & Hsplit)].
  - destruct (Ascii.eqb a c) eqn:Hac.
    + right. apply Ascii.eqb_eq in Hac as ->. exists "". split; [reflexivity|].
      by exists "", s, [].
    + by left.
  - right. rewrite Hsplit in Hs |- *. cbn [List.last] in Hs.
    destruct (Ascii.eqb a c) eqn:Hac.
    + exists (String a stem). split; [|by exists "", x, (y :: l)].
      change (String a stem ++ ?t) with (String a (stem ++ t)).
      cbn [List.last]. by rewrite <- Hs.
    + exists (String a stem). split; [|by exists (String a x), y, l].
      change (String a stem ++ ?t) with (String a (stem ++ t)).
      cbn [List.last]. by rewrite <- Hs.
Qed.

Lemma last_dot_segment_app (stem suffix : string) :
  Str.split "." suffix = [suffix] →
  Str.last_dot_segment (stem ++ "." ++ suffix) = suffix.
Proof.
  intros Hsplit. unfold Str.last_dot_segment.
  change ("." ++ suffix) with (String "." suffix).
  rewrite split_app, last_app_nonempty by apply split_nonempty.
  by rewrite Hsplit.
Qed.

Lemma hub_shape_iff (path : string) :
  hub_shape path ↔ Str.last_dot_segment path ∈ hub_suffixes.
Proof.
  split.
  - intros [Hin | (stem & suffix & Hin & ->)].
    + repeat (apply elem_of_cons in Hin as [-> | Hin];
              [vm_compute; repeat constructor|]).
      by apply elem_of_nil in Hin.
    + rewrite last_dot_segment_app; [exact Hin|].
      repeat (apply elem_of_cons in Hin as [-> | Hin]; [reflexivity|]).
      by apply elem_of_nil in Hin.
  - unfold Str.last_dot_segment. intros Hin.
    destruct (split_last_cases "." path) as [Hone | (stem & Hpath & _)].
    + left. by rewrite Hone in Hin.
    + right. exists stem, (List.last (Str.split "." path) "").
      split; [exact Hin | exact Hpath].
Qed.

(** X12.  The hub refuses a path, before any request and with nothing
    changed, exactly when the path is none of [py], [json], [yaml] and
    does not end in a dot followed by one of them; a path that is just
    [json], with no dot at all, is let through. *)
Theorem hub_refuses_by_shape
    (E : Env) (fuel : nat) (path : string) (w : world) :
  ¬ hub_shape path
  ↔ _load_from_hub E (load_prompt_from_config E fuel) path w
    = (Raise (ValueError (Some "Unsupported file type.")), w).
Proof.
  rewrite hub_shape_iff. split.
  - intros Hout. rewrite _load_from_hub_cases. cbn zeta.
    by rewrite bool_decide_false.
  - intros Hrun Hin.
    assert (∃ rest, log w = (log w ++ EGet (URL_BASE ++ path) :: rest)%list)
      as [rest Hlog].
    { revert Hrun. rewrite _load_from_hub_cases. cbn zeta.
      rewrite bool_decide_true by exact Hin.
      destruct (requests_get E _) as [e|r];
        [intros [= _ Hw]; exists []; by rewrite <- Hw at 1|].
      destruct (status_code r =? 200)%Z;
        [|intros [= _ Hw]; exists []; by rewrite <- Hw at 1].
      unfold finally.
      destruct (_load_prompt_from_file _ _ _ _) as [rf wf] eqn:Hfile.
      apply _load_prompt_from_file_emits in Hfile as (l & Hl & _);
        [|apply (loader_emits E fuel)].
      intros [= _ Hw]. exists l. rewrite <- Hw at 1. cbn in *.
      rewrite Hl. by rewrite <- app_assoc. }
    apply (f_equal (@List.length event)) in Hlog.
    rewrite List.length_app in Hlog. cbn in Hlog. lia.
Qed.

Lemma hub_refuses_by_shape_witness :
  _load_from_hub Demo.env (load_prompt_from_config Demo.env 1)
    "qa/prompt.txt" Demo.disk
  = (Raise (ValueError (Some "Unsupported file type.")), Demo.disk)
  ∧ hub_shape "json"
  ∧ hub_shape "qa/simple.yaml".
Proof.
  split; [|split].
  - apply (proj1 (hub_refuses_by_shape Demo.env 1 "qa/prompt.txt" Demo.disk)).
    rewrite hub_shape_iff. vm_compute. not_a_key.
  - left. repeat constructor.
  - right. exists "qa/simple", "yaml". split; [repeat constructor | reflexivity].
Defined.

(** ** A few-shot configuration with everything inline, end to end *)

Lemma _load_prompt_plain (E : Env) (cfg : dict) (w : world) :
  cfg !! "template_path" = None →
  cfg !! "output_parser" = None →
  _load_prompt E {| config := cfg; outer := w |}
  = (match construct E PromptTemplate cfg with
     | inl e => Raise e
     | inr attrs => Ok (VObj PromptTemplate attrs)
     end,
     {| config := cfg; outer := logged (ENew PromptTemplate cfg) w |}).
Proof.
  intros Hpath Hparser. unfold _load_prompt.
  unfold bind at 1. rewrite _load_template_no_path by exact Hpath.
  unfold bind at 1. rewrite _load_output_parser_absent by (left; exact Hparser).
  unfold lift, new, bind, emit, of_sum, ret, raise, logged. cbn.
  destruct (construct E PromptTemplate cfg); reflexivity.
Qed.

(** X14.  A few-shot configuration with inline prefix, suffix, examples
    and an inline single-template [example_prompt] makes two calls to the
    outside, in this order: the [PromptTemplate] constructor on the nested
    dictionary without its tag, then the [FewShotPromptTemplate]
    constructor on the configuration without its tag and with the built
    sub-template under [example_prompt]; the examples are handed over as
    they are. *)
Theorem inline_few_shot_reaches_constructors
    (E : Env) (fuel : nat) (cfg sub attrs : dict) (examples : list value)
    (w : world) :
  cfg !! "_type" = Some (VStr "few_shot") →
  cfg !! "suffix_path" = None →
  cfg !! "prefix_path" = None →
  cfg !! "example_prompt_path" = None →
  cfg !! "example_prompt" = Some (VDict sub) →
  cfg !! "examples" = Some (VList examples) →
  cfg !! "output_parser" = None →
  sub !! "_type" = None ∨ sub !! "_type" = Some (VStr "prompt") →
  sub !! "template_path" = None →
  sub !! "output_parser" = None →
  construct E PromptTemplate (delete "_type" sub) = inr attrs →
  let kwargs :=
    <["example_prompt" := VObj PromptTemplate attrs]> (delete "_type" cfg) in
  load_prompt_from_config E (S (S fuel)) {| config := cfg; outer := w |}
  = (match construct E FewShotPromptTemplate kwargs with
     | inl e => Raise e
     | inr a => Ok (VObj FewShotPromptTemplate a)
     end,
     {| config := kwargs;
        outer := logged (ENew FewShotPromptTemplate kwargs)
                   (logged (ENew PromptTemplate (delete "_type" sub)) w) |})
  ∧ kwargs !! "examples" = Some (VList examples)
  ∧ kwargs !! "_type" = None.
Proof.
  intros Htag Hsuffix Hprefix Hpath Hinline Hexamples Hparser
    Hsubtag Hsubpath Hsubparser Hsub.
  cbn zeta. split; [|split].
  - rewrite load_prompt_from_config_pop. cbn zeta. rewrite Htag.
    cbn [eq_str String.eqb Ascii.eqb Bool.eqb].
    unfold _load_few_shot_prompt.
    unfold bind at 1. rewrite _load_template_no_path
      by (cbn; by rewrite lookup_delete_ne).
    unfold bind at 1. rewrite _load_template_no_path
      by (cbn; by rewrite lookup_delete_ne).
    unfold bind at 1, contains, has_key. cbn [config].
    rewrite lookup_delete_ne, Hpath by discriminate.
    unfold bind at 1. unfold bind at 1, getitem. cbn [config].
    rewrite lookup_delete_ne, Hinline by discriminate.
    unfold bind at 1, call_nested. cbn [config outer].
    rewrite load_prompt_from_config_prompt by exact Hsubtag.
    rewrite _load_prompt_plain
      by (rewrite lookup_delete_ne by discriminate; assumption).
    rewrite Hsub. unfold setitem. cbn [config outer].
    rewrite insert_insert_eq.
    unfold bind at 1. rewrite _load_examples_cases. cbn zeta.
    rewrite lookup_insert_ne, lookup_delete_ne, Hexamples by discriminate.
    unfold bind at 1. rewrite _load_output_parser_absent
      by (left; cbn; by rewrite lookup_insert_ne, lookup_delete_ne).
    unfold lift, new, bind, emit, of_sum, ret, raise, logged. cbn.
    destruct (construct E FewShotPromptTemplate _); reflexivity.
  - by rewrite lookup_insert_ne, lookup_delete_ne.
  - rewrite lookup_insert_ne by discriminate. apply lookup_delete_eq.
Qed.

Lemma inline_few_shot_reaches_constructors_witness :
  load_prompt_from_config Demo.env 2 (Demo.on_disk few_shot_inline)
  = (match construct Demo.env FewShotPromptTemplate few_shot_resolved with
     | inl e => Raise e
     | inr a => Ok (VObj FewShotPromptTemplate a)
     end,
     {| config := few_shot_resolved;
        outer := logged (ENew FewShotPromptTemplate few_shot_resolved)
                   (logged (ENew PromptTemplate
                              (delete "_type" example_prompt_config))
                           Demo.disk) |})
  ∧ few_shot_resolved !! "examples"
    = Some (VList [VDict {[ "q" := VStr "2+2"; "a" := VStr "4" ]};
                   VDict {[ "q" := VStr "3+3"; "a" := VStr "6" ]}])
  ∧ few_shot_resolved !! "_type" = None.
Proof.
  apply (inline_few_shot_reaches_constructors Demo.env 0 few_shot_inline
           example_prompt_config (delete "_type" example_prompt_config));
    try reflexivity.
  right. reflexivity.
Defined.

(** ** The entry point on a local path *)

(** X15.  For a path that does not start with the hub prefix and has the
    suffix [.json] or [.yaml], a load is the resolution of the decoded
    text of the file: same outcome, same calls; the decoded dictionary
    itself is dropped.  Two files, one of each kind, that decode to the
    same configuration therefore load alike. *)
Theorem local_load_resolves_decoded_text
    (E : Env) (fuel : nat) (path text : string) (cfg : dict) (w : world) :
  Str.startswith path "lc://prompts" = false →
  files w !! path = Some text →
  (Str.path_suffix path = ".json" ∧ json_load E text = inr (VDict cfg))
  ∨ (Str.path_suffix path = ".yaml"
     ∧ yaml_safe_load E text = inr (VDict cfg)) →
  load_prompt E (S fuel) (VStr path) w
  = (fst (load_prompt_from_config E fuel {| config := cfg; outer := w |}),
     outer (snd (load_prompt_from_config E fuel
                   {| config := cfg; outer := w |}))).
Proof.
  intros Hlocal Hfile Hdec. cbn [load_prompt]. rewrite Hlocal.
  rewrite (_load_prompt_from_file_decoded E _ path text
             (if String.eqb (Str.path_suffix path) ".json"
              then json_load E else yaml_safe_load E) (VDict cfg)).
  - unfold call_fresh. by destruct (load_prompt_from_config E fuel _).
  - destruct Hdec as [[-> _] | [-> _]]; [left | right]; split; reflexivity.
  - exact Hfile.
  - destruct Hdec as [[-> Hd] | [-> Hd]]; exact Hd.
Qed.

Lemma local_load_resolves_decoded_text_witness :
  load_prompt Demo.env 2 (VStr "simple.json") Demo.disk
  = (fst (load_prompt_from_config Demo.env 1 (Demo.on_disk Demo.simple_prompt)),
     outer (snd (load_prompt_from_config Demo.env 1
                   (Demo.on_disk Demo.simple_prompt))))
  ∧ load_prompt Demo.env 2 (VStr "simple.yaml") Demo.disk
    = load_prompt Demo.env 2 (VStr "simple.json") Demo.disk.
Proof.
  pose proof (local_load_resolves_decoded_text Demo.env 1 "simple.json"
                "simple" Demo.simple_prompt Demo.disk eq_refl eq_refl
                (or_introl (conj eq_refl eq_refl))) as Hjson.
  pose proof (local_load_resolves_decoded_text Demo.env 1 "simple.yaml"
                "simple" Demo.simple_prompt Demo.disk eq_refl eq_refl
                (or_intror (conj eq_refl eq_refl))) as Hyaml.
  split; [exact Hjson|]. rewrite Hyaml. symmetry. exact Hjson.
Defined.

(** ** A sub-template read from a file *)

(** X17.  When a few-shot configuration names its sub-template by
    [example_prompt_path] and has no inline [example_prompt], the path is
    handed to [load_prompt], and what comes back is stored under
    [example_prompt] while [example_prompt_path] is removed: with a list
    of examples and no output parser, the [FewShotPromptTemplate]
    constructor receives exactly that dictionary. *)
Theorem referenced_sub_template_is_stored
    (E : Env) (load_config : M cstate value)
    (load_path : value -> M world value) (s s1 s2 : cstate)
    (path prompt : value) (w3 : world) (examples : list value) :
  _load_template "suffix" s = (Ok tt, s1) →
  _load_template "prefix" s1 = (Ok tt, s2) →
  config s !! "example_prompt_path" = Some path →
  config s !! "example_prompt" = None →
  load_path path (outer s2) = (Ok prompt, w3) →
  config s !! "examples" = Some (VList examples) →
  config s !! "output_parser" = None →
  let kwargs :=
    <["example_prompt" := prompt]> (delete "example_prompt_path" (config s2)) in
  _load_few_shot_prompt E load_config load_path s
  = (match construct E FewShotPromptTemplate kwargs with
     | inl e => Raise e
     | inr a => Ok (VObj FewShotPromptTemplate a)
     end,
     {| config := kwargs; outer := logged (ENew FewShotPromptTemplate kwargs) w3 |})
  ∧ kwargs !! "example_prompt" = Some prompt
  ∧ kwargs !! "example_prompt_path" = None.
Proof.
  intros H1 H2 Hpath Hinline Hload Hexamples Hparser. cbn zeta.
  assert (∀ k, k ∉ ["suffix"; "suffix_path"; "prefix"; "prefix_path"] →
               config s2 !! k = config s !! k) as Hkeep.
  { intros k Hk.
    transitivity (config s1 !! k).
    - eapply untouched_load_template; [| |exact H2];
        intros ->; apply Hk; set_solver.
    - eapply untouched_load_template; [| |exact H1];
        intros ->; apply Hk; set_solver. }
  pose proof (Hkeep "example_prompt_path" ltac:(not_a_key)) as Hkpath.
  pose proof (Hkeep "example_prompt" ltac:(not_a_key)) as Hkinline.
  pose proof (Hkeep "examples" ltac:(not_a_key)) as Hkexamples.
  pose proof (Hkeep "output_parser" ltac:(not_a_key)) as Hkparser.
  split; [|split; [apply lookup_insert_eq|]].
  - unfold _load_few_shot_prompt.
    unfold bind at 1. rewrite H1. unfold bind at 1. rewrite H2.
    unfold bind at 1, contains, has_key. rewrite Hkpath, Hpath.
    unfold bind at 1. unfold bind at 1. rewrite Hkinline, Hinline.
    unfold bind at 1, pop. rewrite Hkpath, Hpath.
    unfold bind at 1, lift. cbn [config outer]. rewrite Hload.
    unfold setitem. cbn [config outer].
    unfold bind at 1. rewrite _load_examples_cases. cbn zeta.
    rewrite lookup_insert_ne, lookup_delete_ne by discriminate.
    rewrite Hkexamples, Hexamples.
    unfold bind at 1. rewrite _load_output_parser_absent.
    + unfold lift, new, bind, emit, of_sum, ret, raise, logged. cbn.
      destruct (construct E FewShotPromptTemplate _); reflexivity.
    + left. cbn. rewrite lookup_insert_ne, lookup_delete_ne by discriminate.
      by rewrite Hkparser.
  - rewrite lookup_insert_ne by discriminate. apply lookup_delete_eq.
Qed.

Lemma referenced_sub_template_is_stored_witness :
  _load_few_shot_prompt Demo.env
    (load_prompt_from_config Demo.env 2) (load_prompt Demo.env 2)
    (Demo.on_disk few_shot_by_reference)
  = (match construct Demo.env FewShotPromptTemplate
             (<["example_prompt" := VObj PromptTemplate Demo.simple_prompt]>
                (delete "example_prompt_path" few_shot_by_reference))
     with
     | inl e => Raise e
     | inr a => Ok (VObj FewShotPromptTemplate a)
     end,
     {| config := <["example_prompt" := VObj PromptTemplate Demo.simple_prompt]>
                    (delete "example_prompt_path" few_shot_by_reference);
        outer := logged
                   (ENew FewShotPromptTemplate
                      (<["example_prompt" := VObj PromptTemplate Demo.simple_prompt]>
                         (delete "example_prompt_path" few_shot_by_reference)))
                   (logged (ENew PromptTemplate Demo.simple_prompt) Demo.disk) |})
  ∧ <["example_prompt" := VObj PromptTemplate Demo.simple_prompt]>
      (delete "example_prompt_path" few_shot_by_reference)
    !! "example_prompt" = Some (VObj PromptTemplate Demo.simple_prompt)
  ∧ <["example_prompt" := VObj PromptTemplate Demo.simple_prompt]>
      (delete "example_prompt_path" few_shot_by_reference)
    !! "example_prompt_path" = None.
Proof.
  apply (referenced_sub_template_is_stored Demo.env _ _
           (Demo.on_disk few_shot_by_reference)
           (Demo.on_disk few_shot_by_reference)
           (Demo.on_disk few_shot_by_reference)
           (VStr "simple.json") (VObj PromptTemplate Demo.simple_prompt)
           (logged (ENew PromptTemplate Demo.simple_prompt) Demo.disk)
           [VDict {[ "q" := VStr "2+2"; "a" := VStr "4" ]};
            VDict {[ "q" := VStr "3+3"; "a" := VStr "6" ]}]);
    reflexivity.
Defined.
